(** * The article store of lolaTool: [src/app/api/data/route.ts]

    A shallow embedding of the persistence endpoint (the four route
    handlers [GET], [POST], [PUT], [DELETE] and the two file helpers
    [readDataFile], [writeDataFile]) and the properties of its
    read-modify-write contract over [public/data.json].

    Conventions of the embedding.
    - A JavaScript [number] that holds an identifier is an integer of [Z];
      [NaN] (only [parseInt] produces it here) is [None], and [-0] is [0].
      A number is a double: what the program computes ([maxId + 1], the
      result of [parseInt]) is rounded to the nearest double, so that
      arithmetic is exact up to 2^53 and not beyond.
    - A JavaScript exception is the [Throw] result of a state-and-exception
      monad over the file system; [try { } catch { }] is [try_catch].
    - The TypeScript casts ([as DataFile], [as Article]) are taken at their
      word: a text that [JSON.parse] accepts is the text of a [DataFile].
    - [console.error] writes to the server log only and is left out. *)

From Stdlib Require Import ZArith List String Ascii Bool Lia.
Import ListNotations.
Open Scope string_scope.
Open Scope list_scope.
Open Scope Z_scope.

(** ** Data model *)

(** [interface Article].  The handlers store whatever object the client
    sent ([Partial<Article>] cast to [Article]), so at run time every field
    but [id] may be missing: a missing field is [None]. *)
Record Article := mkArticle {
  id : Z;
  authors : option string;
  doi : option string;
  title : option string;
  keywords : option (list string);
  models : option (list string);
  techniques : option (list string);
  results : option (list string);
  notes : option string
}.

(** [Partial<Article>], the body of a POST: [id] is optional too. *)
Record PartialArticle := mkPartial {
  p_id : option Z;
  p_authors : option string;
  p_doi : option string;
  p_title : option string;
  p_keywords : option (list string);
  p_models : option (list string);
  p_techniques : option (list string);
  p_results : option (list string);
  p_notes : option string
}.

(** [interface DataFile]. *)
Record DataFile := mkDataFile { articles : list Article }.

(** [newArticle.id = n]: the property is created or overwritten, every
    other property of the object stays. *)
Definition assign_id (p : PartialArticle) (n : Z) : Article :=
  {| id := n;
     authors := p_authors p;
     doi := p_doi p;
     title := p_title p;
     keywords := p_keywords p;
     models := p_models p;
     techniques := p_techniques p;
     results := p_results p;
     notes := p_notes p |}.

(** ** Numbers *)

(** [Number.MAX_SAFE_INTEGER], 2^53 - 1. *)
Definition MAX_SAFE_INTEGER : Z := 9007199254740991.

(** The Number value of an integer: the integer itself up to 2^53 in
    magnitude, and beyond the nearest integer with a significand of 53
    bits, the even significand in a tie (IEEE 754, round to nearest, ties
    to even).  Doubles end near 2^1024; no number of the program comes
    close. *)
Definition Number_value (z : Z) : Z :=
  let m := Z.abs z in
  if m <=? 9007199254740992 then z
  else
    let e := Z.log2 m - 52 in
    let q := m / 2 ^ e in
    let r := m mod 2 ^ e in
    let half := 2 ^ (e - 1) in
    let q' :=
      if r <? half then q
      else if half <? r then q + 1
      else if Z.even q then q else q + 1 in
    Z.sgn z * (q' * 2 ^ e).

(** [a + b] on numbers that hold integers: the exact sum, rounded. *)
Definition Number_add (a b : Z) : Z := Number_value (a + b).

(** ** The file system as the handlers see it *)

(** The text of a file, up to what [JSON.parse] makes of it: either text
    that is not JSON, or the JSON text of a document.  [JSON.stringify]
    followed by [JSON.parse] gives the document back. *)
Inductive Content :=
| NotJson (raw : string)
| Json (d : DataFile).

(** Calls to [fs] on [DATA_FILE_PATH], in the order they were made.  A write
    is recorded with the text it was given, whether or not it went through. *)
Inductive Event :=
| FsRead
| FsWrite (c : Content).

(** How a write that does not go through fails.  [fs.writeFileSync] opens
    the file for writing, which empties it (or creates it), and then writes
    the text.  It throws either at the open (no permission, read-only
    volume: the file is not touched) or after it (volume full, file size
    limit, input/output error: the file holds [remains], the part of the text
    written before the error, possibly nothing; a proper part of the text
    of a document is not JSON). *)
Inductive WriteFailure :=
| FailsBeforeOpen
| FailsAfterOpen (remains : string).

(** [disk]: the content of [public/data.json], [None] when there is no such
    file.  [readable] and [writable]: whether [fs.readFileSync] and
    [fs.writeFileSync] go through; [write_failure]: how a write fails when
    it does not. *)
Record World := mkWorld {
  disk : option Content;
  readable : bool;
  writable : bool;
  write_failure : WriteFailure;
  trace : list Event
}.

Definition logged (e : Event) (w : World) : World :=
  {| disk := disk w; readable := readable w; writable := writable w;
     write_failure := write_failure w; trace := trace w ++ [e] |}.

Definition overwritten (c : Content) (w : World) : World :=
  {| disk := Some c; readable := readable w; writable := writable w;
     write_failure := write_failure w; trace := trace w |}.

(** The file after a write that threw. *)
Definition failed_write (w : World) : World :=
  match write_failure w with
  | FailsBeforeOpen => w
  | FailsAfterOpen remains => overwritten (NotJson remains) w
  end.

(** ** Exceptions and state *)

Inductive Error :=
| ENOENT
| EACCES
| ENOSPC
| SyntaxError.

Inductive Result (A : Type) :=
| Ok (a : A)
| Throw (e : Error).
Arguments Ok {A} a.
Arguments Throw {A} e.

Definition M (A : Type) : Type := World -> Result A * World.

Definition ret {A} (a : A) : M A := fun w => (Ok a, w).

Definition throw {A} (e : Error) : M A := fun w => (Throw e, w).

Definition bind {A B} (m : M A) (k : A -> M B) : M B :=
  fun w => match m w with
           | (Ok a, w') => k a w'
           | (Throw e, w') => (Throw e, w')
           end.

(** [try { m } catch (error) { h error }]: what [m] did to the world before
    it threw stays done. *)
Definition try_catch {A} (m : M A) (h : Error -> M A) : M A :=
  fun w => match m w with
           | (Ok a, w') => (Ok a, w')
           | (Throw e, w') => h e w'
           end.

Declare Scope js_scope.
Delimit Scope js_scope with js.
Notation "x <- m ;; k" := (bind m (fun x => k))
  (at level 100, m at next level, right associativity) : js_scope.
Notation "m ;;; k" := (bind m (fun _ => k))
  (at level 100, right associativity) : js_scope.
Open Scope js_scope.

(** ** Platform functions *)

(** [fs.readFileSync(DATA_FILE_PATH, "utf8")]. *)
Definition readFileSync : M Content :=
  fun w =>
    let w' := logged FsRead w in
    match disk w with
    | None => (Throw ENOENT, w')
    | Some c => if readable w then (Ok c, w') else (Throw EACCES, w')
    end.

(** [fs.writeFileSync(DATA_FILE_PATH, text, "utf8")]: the whole file is
    replaced, or the call throws, before or after it opened the file. *)
Definition writeFileSync (c : Content) : M unit :=
  fun w =>
    let w' := logged (FsWrite c) w in
    if writable w then (Ok tt, overwritten c w')
    else (Throw (match write_failure w with
                 | FailsBeforeOpen => EACCES
                 | FailsAfterOpen _ => ENOSPC
                 end),
          failed_write w').

Definition JSON_parse (c : Content) : M DataFile :=
  match c with
  | Json d => ret d
  | NotJson _ => throw SyntaxError
  end.

Definition JSON_stringify (d : DataFile) : Content := Json d.

(** [Array.prototype.reduce(f, init)]. *)
Definition reduce {A B} (f : B -> A -> B) (init : B) (l : list A) : B :=
  fold_left f l init.

(** [Array.prototype.push]. *)
Definition push {A} (l : list A) (x : A) : list A := l ++ [x].

(** [Array.prototype.findIndex]: the index of the first element that
    satisfies [p], [-1] when there is none. *)
Fixpoint findIndex {A} (p : A -> bool) (l : list A) : Z :=
  match l with
  | [] => -1
  | x :: l' =>
      if p x then 0
      else let r := findIndex p l' in
           if r =? -1 then -1 else r + 1
  end.

(** [array[index] = x] for a non-negative index inside the array.  (Past
    the end JavaScript would grow the array; [PUT] only assigns at an index
    that [findIndex] returned, which [findIndex_range] shows to be inside,
    and the list is left alone there.) *)
Fixpoint assign_at {A} (l : list A) (n : nat) (x : A) : list A :=
  match l, n with
  | [], _ => []
  | _ :: l', O => x :: l'
  | y :: l', S n' => y :: assign_at l' n' x
  end.

Definition assign_index {A} (l : list A) (index : Z) (x : A) : list A :=
  if index <? 0 then l else assign_at l (Z.to_nat index) x.

(** [parseInt(string)] without a radix (ECMAScript 19.2.5): leading white
    space is skipped, then an optional sign, then an optional [0x] or [0X]
    that switches to radix 16; the longest run of digits of the radix is
    read and the rest of the text is ignored.  No digit at all gives [NaN].
    The result is the Number value of the integer read.  Strings are ASCII
    here, so only the ASCII white space is skipped.  (ECMAScript lets an
    implementation take the digits after the twentieth for zeros before it
    rounds; the rounding here is of the integer as written.) *)
Definition is_white_space (c : ascii) : bool :=
  let n := Z.of_nat (nat_of_ascii c) in
  ((9 <=? n) && (n <=? 13)) || (n =? 32).

Fixpoint trim_start (s : string) : string :=
  match s with
  | String c s' => if is_white_space c then trim_start s' else s
  | EmptyString => EmptyString
  end.

Definition digit_value (c : ascii) : option Z :=
  let n := Z.of_nat (nat_of_ascii c) in
  if (48 <=? n) && (n <=? 57) then Some (n - 48)
  else if (97 <=? n) && (n <=? 122) then Some (n - 97 + 10)
  else if (65 <=? n) && (n <=? 90) then Some (n - 65 + 10)
  else None.

(** The value of the longest prefix of [s] made of digits of radix [R],
    continuing from the digits already read ([acc], [None] before the
    first one). *)
Fixpoint read_digits (R : Z) (s : string) (acc : option Z) : option Z :=
  match s with
  | String c s' =>
      match digit_value c with
      | Some v =>
          if v <? R
          then read_digits R s' (Some (match acc with
                                       | Some a => a * R + v
                                       | None => v
                                       end))
          else acc
      | None => acc
      end
  | EmptyString => acc
  end.

Definition parseInt (input : string) : option Z :=
  let trimmed := trim_start input in
  let '(sign, unsigned) :=
    match trimmed with
    | String "-" rest => (-1, rest)
    | String "+" rest => (1, rest)
    | _ => (1, trimmed)
    end in
  let '(R, digits) :=
    match unsigned with
    | String "0" (String "x" rest) => (16, rest)
    | String "0" (String "X" rest) => (16, rest)
    | _ => (10, unsigned)
    end in
  match read_digits R digits None with
  | None => None
  | Some mathInt => Some (Number_value (sign * mathInt))
  end.

(** [!id] for a number: [NaN] and [0] are falsy. *)
Definition falsy (n : option Z) : bool :=
  match n with
  | None => true
  | Some z => z =? 0
  end.

(** [x !== y] and [x === y] between the [id] of a stored article and a
    number that may be [NaN]: [NaN] is equal to nothing. *)
Definition strict_equal (x : Z) (y : option Z) : bool :=
  match y with
  | Some z => x =? z
  | None => false
  end.

(** [s || d] for a string or [null]: [null] and the empty string are
    falsy. *)
Definition or_else (s : option string) (d : string) : string :=
  match s with
  | None => d
  | Some EmptyString => d
  | Some s' => s'
  end.

(** ** Requests and responses *)

(** The body of a request, as [request.json()] finds it: text that is not
    JSON makes the call throw.  A body that is JSON is taken, as the casts
    of the handlers take it, for an object with the properties of an
    article; a JSON array or a primitive value for a body is not part of
    this model. *)
Inductive Body (A : Type) :=
| Malformed
| Parsed (a : A).
Arguments Malformed {A}.
Arguments Parsed {A} a.

Definition request_json {A} (request : Body A) : M A :=
  match request with
  | Parsed a => ret a
  | Malformed => throw SyntaxError
  end.

(** The objects the handlers pass to [NextResponse.json]. *)
Inductive Payload :=
| Document (d : DataFile)                (* the data file itself *)
| SuccessArticle (article : Article)     (* { success: true, article } *)
| Success                                (* { success: true } *)
| Failure (message : string).            (* { success: false, message } *)

Record Response := mkResponse { status : Z; payload : Payload }.

(** [NextResponse.json(body)] and [NextResponse.json(body, { status })]. *)
Definition NextResponse_json (body : Payload) : Response :=
  {| status := 200; payload := body |}.

Definition NextResponse_json_status (body : Payload) (st : Z) : Response :=
  {| status := st; payload := body |}.

(** ** [route.ts] *)

Definition readDataFile : M DataFile :=
  try_catch
    (fileContent <- readFileSync ;;
     JSON_parse fileContent)
    (fun _ => ret {| articles := [] |}).

Definition writeDataFile (data : DataFile) : M bool :=
  try_catch
    (writeFileSync (JSON_stringify data) ;;;
     ret true)
    (fun _ => ret false).

Definition GET : M Response :=
  data <- readDataFile ;;
  ret (NextResponse_json (Document data)).

Definition POST (request : Body PartialArticle) : M Response :=
  try_catch
    (data <- readDataFile ;;
     newArticle <- request_json request ;;
     let maxId :=
       reduce (fun (max : Z) (article : Article) =>
                 if id article >? max then id article else max)
              0 (articles data) in
     let newArticle := assign_id newArticle (Number_add maxId 1) in
     let data := {| articles := push (articles data) newArticle |} in
     success <- writeDataFile data ;;
     if success : bool
     then ret (NextResponse_json (SuccessArticle newArticle))
     else ret (NextResponse_json_status
                 (Failure "Échec de l'écriture du fichier") 500))
    (fun _ =>
       ret (NextResponse_json_status (Failure "Erreur serveur") 500)).

Definition PUT (request : Body Article) : M Response :=
  try_catch
    (data <- readDataFile ;;
     updatedArticle <- request_json request ;;
     let index :=
       findIndex (fun article : Article => id article =? id updatedArticle)
                 (articles data) in
     if index =? -1
     then ret (NextResponse_json_status (Failure "Article non trouvé") 404)
     else
       let data :=
         {| articles := assign_index (articles data) index updatedArticle |} in
       success <- writeDataFile data ;;
       if success : bool
       then ret (NextResponse_json (SuccessArticle updatedArticle))
       else ret (NextResponse_json_status
                   (Failure "Échec de l'écriture du fichier") 500))
    (fun _ =>
       ret (NextResponse_json_status (Failure "Erreur serveur") 500)).

(** The request of a DELETE is its URL; [searchParams_id] is what
    [url.searchParams.get("id")] returns, [None] for [null]. *)
Definition DELETE (searchParams_id : option string) : M Response :=
  try_catch
    (let id_ := parseInt (or_else searchParams_id "0") in
     if falsy id_
     then ret (NextResponse_json_status (Failure "ID manquant") 400)
     else
       data <- readDataFile ;;
       let filteredArticles :=
         filter (fun article : Article => negb (strict_equal (id article) id_))
                (articles data) in
       if (List.length filteredArticles =? List.length (articles data))%nat
       then ret (NextResponse_json_status (Failure "Article non trouvé") 404)
       else
         let data := {| articles := filteredArticles |} in
         success <- writeDataFile data ;;
         if success : bool
         then ret (NextResponse_json Success)
         else ret (NextResponse_json_status
                     (Failure "Échec de l'écriture du fichier") 500))
    (fun _ =>
       ret (NextResponse_json_status (Failure "Erreur serveur") 500)).

(** ** Vocabulary of the properties *)

(** The Document the service works on in a world: what a load returns. *)
Definition document (w : World) : DataFile :=
  match fst (readDataFile w) with
  | Ok d => d
  | Throw _ => {| articles := [] |}
  end.

Definition ids (d : DataFile) : list Z := map id (articles d).

(** The maximum of the existing ids and [0]: [0] for no article, and [0]
    is also the floor when every id is negative. *)
Definition max_id_or_0 (l : list Article) : Z :=
  fold_right Z.max 0 (map id l).

(** The id a response announces for a created or updated article. *)
Definition assigned_id (r : Response) : option Z :=
  match payload r with
  | SuccessArticle a => Some (id a)
  | _ => None
  end.

(** The article a response carries, if the handler answered with one. *)
Definition payload_article (r : Result Response) : option Article :=
  match r with
  | Ok {| payload := SuccessArticle a |} => Some a
  | _ => None
  end.

(** The four operations as one request type; Next.js routes a request to
    the exported handler named after its method. *)
Inductive Request :=
| List_
| Create (body : Body PartialArticle)
| Update (body : Body Article)
| Delete (searchParams_id : option string).

Definition dispatch (r : Request) : M Response :=
  match r with
  | List_ => GET
  | Create body => POST body
  | Update body => PUT body
  | Delete q => DELETE q
  end.

(** Creates issued one after the other, each on the world the previous one
    left. *)
Fixpoint creates (bodies : list PartialArticle) : M (list Response) :=
  match bodies with
  | [] => ret []
  | b :: bodies' =>
      r <- POST (Parsed b) ;;
      rs <- creates bodies' ;;
      ret (r :: rs)
  end.

(** The fields a client submits, that is all of them but [id]. *)
Definition same_fields (p : PartialArticle) (a : Article) : Prop :=
  authors a = p_authors p /\ doi a = p_doi p /\ title a = p_title p /\
  keywords a = p_keywords p /\ models a = p_models p /\
  techniques a = p_techniques p /\ results a = p_results p /\
  notes a = p_notes p.

(** The article a Create builds in a world, and the document it hands to
    [writeDataFile]. *)
Definition created (b : PartialArticle) (w : World) : Article :=
  assign_id b (Number_add (max_id_or_0 (articles (document w))) 1).

Definition after_create (b : PartialArticle) (w : World) : DataFile :=
  {| articles := articles (document w) ++ [created b w] |}.

(** The position [PUT] looks up, and the document it hands to
    [writeDataFile] when it found one. *)
Definition position (u : Article) (w : World) : Z :=
  findIndex (fun article : Article => id article =? id u)
            (articles (document w)).

Definition after_update (u : Article) (w : World) : DataFile :=
  {| articles := assign_index (articles (document w)) (position u w) u |}.

(** The document [DELETE] hands to [writeDataFile]. *)
Definition after_delete (i : Z) (w : World) : DataFile :=
  {| articles :=
       filter (fun article : Article => negb (id article =? i))
              (articles (document w)) |}.

(** The body of a Create with its [id] property set to [o], or removed for
    [None]. *)
Definition with_id (b : PartialArticle) (o : option Z) : PartialArticle :=
  {| p_id := o;
     p_authors := p_authors b;
     p_doi := p_doi b;
     p_title := p_title b;
     p_keywords := p_keywords b;
     p_models := p_models b;
     p_techniques := p_techniques b;
     p_results := p_results b;
     p_notes := p_notes b |}.

(** A usable id parameter of a Delete, read generously: the text of
    the parameter begins, after white space and a sign, with digits that
    [parseInt] reads as a positive integer. *)
Definition reads_as_positive (q : option string) : Prop :=
  exists i : Z, parseInt (or_else q "0") = Some i /\ 0 < i.

(** The scenario of the specification: on an empty store, create a record,
    change its title, list, delete it, list again. *)
Definition scenario : M (list Response) :=
  r1 <- POST (Parsed (mkPartial None (Some "A. Smith") None None (Some ["x"])
                                (Some ["m"]) (Some ["t"]) (Some ["r"])
                                None)) ;;
  r2 <- PUT (Parsed (mkArticle 1 (Some "A. Smith") None (Some "A title")
                               (Some ["x"]) (Some ["m"]) (Some ["t"])
                               (Some ["r"]) None)) ;;
  r3 <- GET ;;
  r4 <- DELETE (Some "1") ;;
  r5 <- GET ;;
  ret [r1; r2; r3; r4; r5].

(** ** The client: number to text *)

(** The decimal digits of a natural number, in front of [rest]. *)
Definition digit_char (d : Z) : ascii := ascii_of_nat (Z.to_nat (48 + d)).

Fixpoint digits_of (fuel : nat) (n : Z) (rest : string) : string :=
  let rest' := String (digit_char (n mod 10)) rest in
  match fuel with
  | O => rest'
  | S fuel' => if n <? 10 then rest' else digits_of fuel' (n / 10) rest'
  end.

Definition decimal (n : Z) : string :=
  digits_of (Z.to_nat (Z.log2 n)) n "".

Fixpoint zeros (n : nat) : string :=
  match n with
  | O => ""
  | S n' => String "0" (zeros n')
  end.

(** Number::toString looks for integers [n], [k] and [s] with [k] as small
    as possible, [s] of [k] digits and [x] the Number value of
    [s * 10^(n - k)]; of two such [s] it takes the one nearer to [x].  For
    [x] of [D] digits the search goes through [k = 1, 2, ...] with the two
    [s] around [x / 10^(D - k)], and at [k = 1] also tries [10^D]. *)
Definition is_shortest (x D k s : Z) : bool :=
  (10 ^ (k - 1) <=? s) && (s <? 10 ^ k) &&
  (Number_value (s * 10 ^ (D - k)) =? x).

Fixpoint shortest_digits (fuel : nat) (x D k : Z) : option (Z * Z * Z) :=
  match fuel with
  | O => None
  | S fuel' =>
      let p := 10 ^ (D - k) in
      let lo := x / p in
      let hi := lo + 1 in
      if is_shortest x D k lo && is_shortest x D k hi
      then if x - lo * p <=? hi * p - x
           then Some (lo, k, D) else Some (hi, k, D)
      else if is_shortest x D k lo then Some (lo, k, D)
      else if is_shortest x D k hi then Some (hi, k, D)
      else if (k =? 1) && (Number_value (10 ^ D) =? x)
           then Some (1, 1, D + 1)
      else shortest_digits fuel' x D (k + 1)
  end.

(** [`${x}`] for a number that holds an integer (Number::toString, radix
    10), after a minus sign for a negative number.  Up to 2^53 the shortest
    digits that give the number back are all its digits.  Beyond, they are
    at most 17, followed by zeros while there are at most 21 digits in
    all, and in exponent notation from there on.  (17 digits always
    suffice; should the search fail, all the digits are printed.) *)
Definition Number_toString (x : Z) : string :=
  let m := Z.abs x in
  let sign := if x <? 0 then "-" else "" in
  if m <=? 9007199254740992 then sign ++ decimal m
  else
    let D := Z.of_nat (String.length (decimal m)) in
    match shortest_digits 17 m D 1 with
    | Some (s, k, n) =>
        if n <=? 21
        then sign ++ decimal s ++ zeros (Z.to_nat (n - k))
        else
          match decimal s with
          | String d EmptyString =>
              sign ++ String d ("e+" ++ decimal (n - 1))
          | String d rest =>
              sign ++ String d ("." ++ rest ++ "e+" ++ decimal (n - 1))
          | EmptyString => sign
          end
    | None => sign ++ decimal m
    end.

(** [url.searchParams.get("id")] on a URL whose query is [id=] followed by
    [value]: a plus sign stands for a space in a query; nothing else in the
    text of a number needs decoding. *)
Fixpoint plus_to_space (value : string) : string :=
  match value with
  | EmptyString => EmptyString
  | String c value' =>
      String (if Ascii.eqb c "+" then " "%char else c) (plus_to_space value')
  end.

(** ** The client: [src/app/page.tsx] *)

(** The state of [Home]: its four [useState] variables.  A state setter is
    the assignment of its variable, and a handler runs to its end on the
    state it was called in. *)
Record Home := mkHome {
  selectedArticle : option Article;
  isFormOpen : bool;
  isEditing : bool;
  currentArticle : option Article
}.

(** What an asynchronous handler ends with: it returns, or it throws
    [new Error(message)]. *)
Inductive Outcome :=
| Returned
| Raised (message : string).

(** [fetch] of [/api/data]: the request is taken to reach the server, the
    response is the one the route handler builds (Next.js answers 500 for a
    handler that throws), and a body made by [JSON.stringify] is read back
    by [request.json()] as the object it was made from. *)
Definition fetch (r : Request) (w : World) : Response * World :=
  match dispatch r w with
  | (Ok response, w') => (response, w')
  | (Throw _, w') =>
      ({| status := 500; payload := Failure "Internal Server Error" |}, w')
  end.

(** [response.ok]. *)
Definition response_ok (response : Response) : bool :=
  (200 <=? status response) && (status response <=? 299).

Definition handleRowSelect (article : Article) (h : Home) : Home :=
  {| selectedArticle := Some article;
     isFormOpen := isFormOpen h;
     isEditing := isEditing h;
     currentArticle := currentArticle h |}.

Definition handleBackToList (h : Home) : Home :=
  {| selectedArticle := None;
     isFormOpen := isFormOpen h;
     isEditing := isEditing h;
     currentArticle := currentArticle h |}.

Definition handleOpenAddForm (h : Home) : Home :=
  {| selectedArticle := selectedArticle h;
     isFormOpen := true;
     isEditing := false;
     currentArticle := None |}.

Definition handleOpenEditForm (article : Article) (h : Home) : Home :=
  {| selectedArticle := selectedArticle h;
     isFormOpen := true;
     isEditing := true;
     currentArticle := Some article |}.

Definition handleCloseForm (h : Home) : Home :=
  {| selectedArticle := selectedArticle h;
     isFormOpen := false;
     isEditing := isEditing h;
     currentArticle := currentArticle h |}.

(** [articleData] is an [Article] or an [Article] without [id];
    ["id" in articleData] is the presence of [p_id].  The [catch] of the
    source logs the error and throws it again. *)
Definition handleSaveArticle (articleData : PartialArticle) (h : Home)
    (w : World) : Outcome * Home * World :=
  let '(response, w') :=
    match p_id articleData with
    | Some i => fetch (Update (Parsed (assign_id articleData i))) w
    | None => fetch (Create (Parsed articleData)) w
    end in
  if negb (response_ok response)
  then (Raised "Erreur lors de l'enregistrement de l'article", h, w')
  else (Returned,
        {| selectedArticle := None;
           isFormOpen := false;
           isEditing := isEditing h;
           currentArticle := currentArticle h |},
        w').

(** The URL is [`/api/data?id=${article.id}`], so what the server finds
    under [id] is the text of the number.  The [catch] of the source logs
    the error and goes on. *)
Definition handleDeleteArticle (article : Article) (h : Home) (w : World)
    : Home * World :=
  let '(response, w') :=
    fetch (Delete (Some (plus_to_space (Number_toString (id article))))) w in
  if negb (response_ok response)
  then (h, w')
  else ({| selectedArticle := None;
           isFormOpen := isFormOpen h;
           isEditing := isEditing h;
           currentArticle := currentArticle h |},
        w').

(** ** The client: the form component ([ArticleForm]) *)

(** [String.prototype.trim], on ASCII strings: the white space at both
    ends goes. *)
Fixpoint trim_end (s : string) : string :=
  match s with
  | EmptyString => EmptyString
  | String c s' =>
      match trim_end s' with
      | EmptyString =>
          if is_white_space c then EmptyString else String c EmptyString
      | t => String c t
      end
  end.

Definition trim (s : string) : string := trim_end (trim_start s).

(** A string used as a condition: the empty string is falsy. *)
Definition truthy (s : string) : bool :=
  match s with
  | EmptyString => false
  | _ => true
  end.

(** [ArrayInput]: [value] is the list the parent holds, [inputValue] the
    text being typed; the first component of a result is what [onChange]
    is called with ([None]: it is not called). *)
Definition handleInputKeyDown (key : string) (value : list string)
    (inputValue : string) : option (list string) * string :=
  if (key =? "Enter")%string && truthy (trim inputValue)
  then (Some (value ++ [trim inputValue]), "")
  else (None, inputValue).

Definition handleDelete (itemToDelete : string) (value : list string)
    : list string :=
  filter (fun item => negb (item =? itemToDelete)%string) value.

(** The data of the form, [Omit<Article, "id"> | Article], with the fields
    its type requires. *)
Record FormData := mkFormData {
  f_id : option Z;
  f_authors : string;
  f_doi : option string;
  f_title : option string;
  f_keywords : list string;
  f_models : list string;
  f_techniques : list string;
  f_results : list string;
  f_notes : option string
}.

Definition defaultArticle : FormData :=
  {| f_id := None; f_authors := ""; f_doi := None; f_title := None;
     f_keywords := []; f_models := []; f_techniques := []; f_results := [];
     f_notes := None |}.

(** The object [onSave] receives, as the handlers of the page and of the
    server type it. *)
Definition articleData_of (f : FormData) : PartialArticle :=
  {| p_id := f_id f;
     p_authors := Some (f_authors f);
     p_doi := f_doi f;
     p_title := f_title f;
     p_keywords := Some (f_keywords f);
     p_models := Some (f_models f);
     p_techniques := Some (f_techniques f);
     p_results := Some (f_results f);
     p_notes := f_notes f |}.

(** [Record<string, string>]: the keys in insertion order with their
    values. *)
Definition Errors := list (string * string).

(** [errors[name]], [undefined] being [None]. *)
Fixpoint get_key (name : string) (errors : Errors) : option string :=
  match errors with
  | [] => None
  | (k, v) :: errors' =>
      if (k =? name)%string then Some v else get_key name errors'
  end.

(** [errors[name] = message]. *)
Fixpoint set_key (name message : string) (errors : Errors) : Errors :=
  match errors with
  | [] => [(name, message)]
  | (k, v) :: errors' =>
      if (k =? name)%string then (k, message) :: errors'
      else (k, v) :: set_key name message errors'
  end.

(** [delete errors[name]]. *)
Definition delete_key (name : string) (errors : Errors) : Errors :=
  filter (fun kv => negb (fst kv =? name)%string) errors.

(** [if (errors[name])]. *)
Definition has_error (name : string) (errors : Errors) : bool :=
  match get_key name errors with
  | Some message => truthy message
  | None => false
  end.

(** The state of [ArticleForm]. *)
Record Form := mkForm {
  formData : FormData;
  errors : Errors;
  isSubmitting : bool;
  submitError : string
}.

(** The text fields wired to [handleChange], by their [name]. *)
Inductive TextField := Authors | Title | Doi | Notes.

Definition name_of (t : TextField) : string :=
  match t with
  | Authors => "authors"
  | Title => "title"
  | Doi => "doi"
  | Notes => "notes"
  end.

(** [{ ...prev, [name]: value }]. *)
Definition set_text (t : TextField) (value : string) (f : FormData)
    : FormData :=
  {| f_id := f_id f;
     f_authors := match t with Authors => value | _ => f_authors f end;
     f_doi := match t with Doi => Some value | _ => f_doi f end;
     f_title := match t with Title => Some value | _ => f_title f end;
     f_keywords := f_keywords f;
     f_models := f_models f;
     f_techniques := f_techniques f;
     f_results := f_results f;
     f_notes := match t with Notes => Some value | _ => f_notes f end |}.

Definition clear_error (name : string) (e : Errors) : Errors :=
  if has_error name e then delete_key name e else e.

Definition handleChange (t : TextField) (value : string) (form : Form)
    : Form :=
  {| formData := set_text t value (formData form);
     errors := clear_error (name_of t) (errors form);
     isSubmitting := isSubmitting form;
     submitError := submitError form |}.

(** The array fields wired to [handleArrayChange]. *)
Inductive ArrayField := Keywords | Models | Techniques | Results.

Definition field_of (a : ArrayField) : string :=
  match a with
  | Keywords => "keywords"
  | Models => "models"
  | Techniques => "techniques"
  | Results => "results"
  end.

Definition get_array (a : ArrayField) (f : FormData) : list string :=
  match a with
  | Keywords => f_keywords f
  | Models => f_models f
  | Techniques => f_techniques f
  | Results => f_results f
  end.

Definition set_array (a : ArrayField) (newValue : list string)
    (f : FormData) : FormData :=
  {| f_id := f_id f;
     f_authors := f_authors f;
     f_doi := f_doi f;
     f_title := f_title f;
     f_keywords := match a with Keywords => newValue | _ => f_keywords f end;
     f_models := match a with Models => newValue | _ => f_models f end;
     f_techniques :=
       match a with Techniques => newValue | _ => f_techniques f end;
     f_results := match a with Results => newValue | _ => f_results f end;
     f_notes := f_notes f |}.

Definition handleArrayChange (a : ArrayField) (newValue : list string)
    (form : Form) : Form :=
  {| formData := set_array a newValue (formData form);
     errors := clear_error (field_of a) (errors form);
     isSubmitting := isSubmitting form;
     submitError := submitError form |}.

(** [validateForm]: the answer, and the record it passes to [setErrors]. *)
Definition validateForm (f : FormData) : bool * Errors :=
  let newErrors : Errors := [] in
  let newErrors :=
    if negb (truthy (f_authors f))
    then set_key "authors" "Le nom des auteurs est requis" newErrors
    else newErrors in
  let newErrors :=
    if (List.length (f_keywords f) =? 0)%nat
    then set_key "keywords" "Au moins un mot-clé est requis" newErrors
    else newErrors in
  let newErrors :=
    if (List.length (f_models f) =? 0)%nat
    then set_key "models" "Au moins un modèle est requis" newErrors
    else newErrors in
  let newErrors :=
    if (List.length (f_techniques f) =? 0)%nat
    then set_key "techniques" "Au moins une technique est requise" newErrors
    else newErrors in
  let newErrors :=
    if (List.length (f_results f) =? 0)%nat
    then set_key "results" "Au moins un résultat est requis" newErrors
    else newErrors in
  ((List.length newErrors =? 0)%nat, newErrors).

(** [handleSubmit], with [onSave] and [onClose] the handlers [Home] passes:
    [handleSaveArticle] and [handleCloseForm]. *)
Definition handleSubmit (form : Form) (h : Home) (w : World)
    : Form * Home * World :=
  let '(valid, newErrors) := validateForm (formData form) in
  if negb valid
  then ({| formData := formData form; errors := newErrors;
           isSubmitting := isSubmitting form; submitError := "" |}, h, w)
  else
    match handleSaveArticle (articleData_of (formData form)) h w with
    | (Returned, h', w') =>
        ({| formData := formData form; errors := newErrors;
            isSubmitting := false; submitError := "" |},
         handleCloseForm h', w')
    | (Raised _, h', w') =>
        ({| formData := formData form; errors := newErrors;
            isSubmitting := false;
            submitError :=
              "Une erreur est survenue lors de l'enregistrement. Veuillez réessayer." |},
         h', w')
    end.

(** ** The client: the detail component ([ArticleDetail]) *)

(** The buttons of the card.  With [deleteConfirm] set the card shows
    Annuler and Supprimer, otherwise the edit and the delete icon; the back
    arrow is always there.  A button that is not shown cannot be clicked. *)
Inductive Click :=
| ClickBack
| ClickEdit
| ClickDeleteIcon
| ClickCancel
| ClickConfirm.

(** The callbacks of the parent a click calls. *)
Inductive Callback :=
| OnBack
| OnEdit (article : Article)
| OnDelete (article : Article).

Definition click (article : Article) (deleteConfirm : bool) (c : Click)
    : bool * list Callback :=
  match c, deleteConfirm with
  | ClickBack, _ => (deleteConfirm, [OnBack])
  | ClickEdit, false => (deleteConfirm, [OnEdit article])
  | ClickDeleteIcon, false => (true, [])
  | ClickCancel, true => (false, [])
  | ClickConfirm, true => (false, [OnDelete article])
  | _, _ => (deleteConfirm, [])
  end.

(** A session on the card of one article: the clicks in order, from the
    state [useState(false)] gives. *)
Fixpoint clicks (article : Article) (deleteConfirm : bool) (cs : list Click)
    : bool * list Callback :=
  match cs with
  | [] => (deleteConfirm, [])
  | c :: cs' =>
      let '(deleteConfirm', called) := click article deleteConfirm c in
      let '(final, called') := clicks article deleteConfirm' cs' in
      (final, called ++ called')
  end.

(** The fields [validateForm] asks for are there. *)
Definition required_filled (f : FormData) : Prop :=
  f_authors f <> "" /\ f_keywords f <> [] /\ f_models f <> [] /\
  f_techniques f <> [] /\ f_results f <> [].

(** The record a form stands for once it has the id [i]. *)
Definition record_of (f : FormData) (i : Z) : Article :=
  {| id := i;
     authors := Some (f_authors f);
     doi := f_doi f;
     title := f_title f;
     keywords := Some (f_keywords f);
     models := Some (f_models f);
     techniques := Some (f_techniques f);
     results := Some (f_results f);
     notes := f_notes f |}.

(** A token as the array inputs make them: not empty, no white space at
    its start nor at its end. *)
Fixpoint ends_with_white_space (s : string) : bool :=
  match s with
  | EmptyString => false
  | String c EmptyString => is_white_space c
  | String _ s' => ends_with_white_space s'
  end.

Definition starts_with_white_space (s : string) : bool :=
  match s with
  | EmptyString => false
  | String c _ => is_white_space c
  end.

Definition clean_token (t : string) : Prop :=
  t <> "" /\ starts_with_white_space t = false /\
  ends_with_white_space t = false.

Definition is_delete_call (c : Callback) : bool :=
  match c with
  | OnDelete _ => true
  | _ => false
  end.

Definition is_delete_icon (c : Click) : bool :=
  match c with
  | ClickDeleteIcon => true
  | _ => false
  end.

(** [l1] is [l2] with some elements left out, the others in their order. *)
Inductive Subseq {A : Type} : list A -> list A -> Prop :=
| Subseq_nil : Subseq [] []
| Subseq_skip (x : A) (l1 l2 : list A) : Subseq l1 l2 -> Subseq l1 (x :: l2)
| Subseq_keep (x : A) (l1 l2 : list A) :
    Subseq l1 l2 -> Subseq (x :: l1) (x :: l2).

(** ** The two file helpers *)

Lemma readDataFile_run (w : World) :
  readDataFile w = (Ok (document w), logged FsRead w).
Proof.
  unfold document, readDataFile, try_catch, bind, readFileSync.
  destruct (disk w) as [[raw | d] |]; simpl; try reflexivity;
    destruct (readable w); reflexivity.
Qed.

Lemma document_cases (w : World) :
  document w =
  match disk w with
  | Some (Json d) => if readable w then d else {| articles := [] |}
  | _ => {| articles := [] |}
  end.
Proof.
  unfold document, readDataFile, try_catch, bind, readFileSync.
  destruct (disk w) as [[raw | d] |]; simpl; try reflexivity;
    destruct (readable w); reflexivity.
Qed.

Lemma document_logged (e : Event) (w : World) :
  document (logged e w) = document w.
Proof. rewrite !document_cases. reflexivity. Qed.

Lemma writeDataFile_run (data : DataFile) (w : World) :
  writeDataFile data w =
  if writable w
  then (Ok true, overwritten (Json data) (logged (FsWrite (Json data)) w))
  else (Ok false, failed_write (logged (FsWrite (Json data)) w)).
Proof.
  unfold writeDataFile, try_catch, bind, writeFileSync, JSON_stringify.
  destruct (writable w); reflexivity.
Qed.

(** A write that threw has added no call, and has left the file either as
    it was or without a document. *)
Lemma failed_write_trace (w : World) : trace (failed_write w) = trace w.
Proof. unfold failed_write. now destruct (write_failure w). Qed.

Lemma failed_write_flags (w : World) :
  readable (failed_write w) = readable w /\
  writable (failed_write w) = writable w /\
  write_failure (failed_write w) = write_failure w.
Proof.
  unfold failed_write. destruct (write_failure w) eqn:H; simpl; auto.
Qed.

Lemma failed_write_disk (w : World) :
  disk (failed_write w) =
  match write_failure w with
  | FailsBeforeOpen => disk w
  | FailsAfterOpen remains => Some (NotJson remains)
  end.
Proof. unfold failed_write. now destruct (write_failure w). Qed.

Lemma document_overwritten (d : DataFile) (w : World) :
  readable w = true -> document (overwritten (Json d) w) = d.
Proof. intros Hr. rewrite document_cases. simpl. now rewrite Hr. Qed.

(** ** Arrays *)

(** Sums are exact while they stay within 2^53. *)
Lemma Number_value_exact (z : Z) :
  Z.abs z <= 9007199254740992 -> Number_value z = z.
Proof.
  intros H. unfold Number_value.
  destruct (Z.leb_spec (Z.abs z) 9007199254740992); [reflexivity | lia].
Qed.

Lemma Number_add_exact (n : Z) :
  0 <= n <= MAX_SAFE_INTEGER -> Number_add n 1 = n + 1.
Proof.
  unfold MAX_SAFE_INTEGER, Number_add. intros H.
  apply Number_value_exact. lia.
Qed.

(** Rounding keeps a positive integer positive. *)
Lemma Number_value_positive (z : Z) : 1 <= z -> 1 <= Number_value z.
Proof.
  intros Hz. unfold Number_value.
  destruct (Z.leb_spec (Z.abs z) 9007199254740992) as [| Hbig]; [exact Hz |].
  cbv zeta. rewrite Z.abs_eq in * by lia.
  rewrite Z.sgn_pos by lia. rewrite Z.mul_1_l.
  assert (Hlog : 53 <= Z.log2 z).
  { apply Z.log2_le_pow2; [lia |]. change (2 ^ 53) with 9007199254740992.
    lia. }
  set (e := Z.log2 z - 52) in *.
  assert (He : 0 < 2 ^ e) by (apply Z.pow_pos_nonneg; lia).
  assert (Hq : 1 <= z / 2 ^ e).
  { apply Z.div_le_lower_bound; [exact He |]. rewrite Z.mul_1_r.
    pose proof (Z.log2_spec z ltac:(lia)) as [Hlo _].
    apply Z.le_trans with (2 ^ Z.log2 z); [| exact Hlo].
    apply Z.pow_le_mono_r; lia. }
  destruct (_ <? _); [nia |].
  destruct (_ <? _); [nia |].
  destruct (Z.even _); nia.
Qed.

Lemma fold_max_seed (l : list Z) (seed x : Z) :
  fold_right Z.max (Z.max seed x) l = Z.max x (fold_right Z.max seed l).
Proof.
  induction l as [| y l IH]; simpl.
  - lia.
  - rewrite IH. lia.
Qed.

(** The [reduce] of [POST] is the maximum of the seed and the ids. *)
Lemma reduce_max_id (l : list Article) (seed : Z) :
  reduce (fun (max : Z) (article : Article) =>
            if id article >? max then id article else max) seed l
  = fold_right Z.max seed (map id l).
Proof.
  unfold reduce. revert seed.
  induction l as [| a l IH]; intros seed; simpl.
  - reflexivity.
  - rewrite IH.
    replace (if id a >? seed then id a else seed) with (Z.max seed (id a))
      by (destruct (Z.gtb_spec (id a) seed); lia).
    apply fold_max_seed.
Qed.

Lemma max_id_or_0_upper (l : list Article) (a : Article) :
  In a l -> id a <= max_id_or_0 l.
Proof.
  unfold max_id_or_0.
  induction l as [| b l IH]; simpl; intros Hin.
  - contradiction.
  - destruct Hin as [-> | Hin]; [lia | specialize (IH Hin); lia].
Qed.

Lemma max_id_or_0_attained (l : list Article) :
  max_id_or_0 l = 0 \/ exists a, In a l /\ id a = max_id_or_0 l.
Proof.
  unfold max_id_or_0.
  induction l as [| b l IH]; simpl.
  - now left.
  - destruct (Z.max_spec (id b) (fold_right Z.max 0 (map id l)))
      as [[_ ->] | [_ ->]].
    + destruct IH as [IH | [a [Hin Ha]]]; [now left | right].
      exists a. split; [now right | exact Ha].
    + right. exists b. split; [now left | reflexivity].
Qed.

Lemma max_id_or_0_nonneg (l : list Article) : 0 <= max_id_or_0 l.
Proof.
  unfold max_id_or_0. induction l as [| b l IH]; simpl; lia.
Qed.

Lemma max_id_or_0_push (l : list Article) (a : Article) :
  id a = max_id_or_0 l + 1 -> max_id_or_0 (push l a) = max_id_or_0 l + 1.
Proof.
  unfold max_id_or_0, push. intros Ha.
  rewrite map_app, fold_right_app. simpl.
  replace (Z.max (id a) 0) with (Z.max 0 (id a)) by lia.
  rewrite fold_max_seed. fold (max_id_or_0 l) in *.
  pose proof (max_id_or_0_nonneg l). unfold max_id_or_0 in *. lia.
Qed.

(** The largest id, or 0, of a Document whose ids are safe integers. *)
Lemma max_id_or_0_safe (l : list Article) :
  Forall (fun i => i <= MAX_SAFE_INTEGER) (map id l) ->
  0 <= max_id_or_0 l <= MAX_SAFE_INTEGER.
Proof.
  intros H. split; [apply max_id_or_0_nonneg |].
  destruct (max_id_or_0_attained l) as [-> | [a [Hin <-]]].
  - unfold MAX_SAFE_INTEGER. lia.
  - rewrite Forall_forall in H. apply H. now apply in_map.
Qed.

Lemma findIndex_range {A} (p : A -> bool) (l : list A) :
  -1 <= findIndex p l < Z.of_nat (List.length l).
Proof.
  induction l as [| x l IH]; simpl List.length; simpl findIndex.
  - lia.
  - destruct (p x); [lia |].
    destruct (Z.eqb_spec (findIndex p l) (-1)); lia.
Qed.

Lemma findIndex_none {A} (p : A -> bool) (l : list A) :
  findIndex p l = -1 <-> (forall x, In x l -> p x = false).
Proof.
  induction l as [| x l IH]; simpl.
  - split; [intros _ y [] | reflexivity].
  - destruct (p x) eqn:Hx.
    + split; [lia | intros H]. specialize (H x (or_introl eq_refl)).
      congruence.
    + pose proof (findIndex_range p l) as Hr.
      destruct (Z.eqb_spec (findIndex p l) (-1)) as [He | Hne].
      * split; [intros _ y [<- | Hy] | reflexivity]; [exact Hx |].
        now apply IH.
      * split; [lia | intros H]. exfalso. apply Hne, IH.
        intros y Hy. apply H. now right.
Qed.

(** [findIndex] returns the position of the first match. *)
Lemma findIndex_first {A} (p : A -> bool) (l : list A) (n : nat) (x : A) :
  nth_error l n = Some x -> p x = true ->
  (forall m y, (m < n)%nat -> nth_error l m = Some y -> p y = false) ->
  findIndex p l = Z.of_nat n.
Proof.
  revert n. induction l as [| z l IH]; intros n Hn Hx Hbefore.
  - destruct n; discriminate.
  - destruct n as [| n]; simpl in *.
    + injection Hn as ->. now rewrite Hx.
    + rewrite (Hbefore O z) by (simpl; auto; lia).
      rewrite (IH n Hn Hx).
      * destruct (Z.eqb_spec (Z.of_nat n) (-1)); lia.
      * intros m y Hm Hy. apply (Hbefore (S m) y); [lia | exact Hy].
Qed.

Lemma assign_at_length {A} (l : list A) (n : nat) (x : A) :
  List.length (assign_at l n x) = List.length l.
Proof.
  revert n. induction l as [| y l IH]; intros [| n]; simpl; auto.
Qed.

Lemma assign_at_same {A} (l : list A) (n : nat) (x : A) :
  (n < List.length l)%nat -> nth_error (assign_at l n x) n = Some x.
Proof.
  revert n. induction l as [| y l IH]; intros [| n]; simpl; intros H;
    try lia; auto. apply IH. lia.
Qed.

Lemma assign_at_other {A} (l : list A) (n m : nat) (x : A) :
  m <> n -> nth_error (assign_at l n x) m = nth_error l m.
Proof.
  revert n m. induction l as [| y l IH]; intros [| n] [| m] H; simpl; auto.
  congruence.
Qed.

(** Replacing an entry by a record with the same id leaves the sequence of
    ids as it was. *)
Lemma assign_at_ids (l : list Article) (n : nat) (a u : Article) :
  nth_error l n = Some a -> id a = id u ->
  map id (assign_at l n u) = map id l.
Proof.
  revert n. induction l as [| y l IH]; intros [| n] Hn Hid; simpl in *;
    try discriminate.
  - injection Hn as ->. now rewrite Hid.
  - f_equal. now apply IH.
Qed.

(** What [findIndex] reports when it finds something. *)
Lemma findIndex_found {A} (p : A -> bool) (l : list A) :
  findIndex p l <> -1 ->
  exists x, nth_error l (Z.to_nat (findIndex p l)) = Some x /\ p x = true.
Proof.
  induction l as [| z l IH]; simpl.
  - congruence.
  - destruct (p z) eqn:Hz.
    + intros _. exists z. now split.
    + pose proof (findIndex_range p l) as Hr.
      destruct (Z.eqb_spec (findIndex p l) (-1)) as [He | Hne];
        [congruence | intros _].
      destruct (IH Hne) as [x [Hx Hp]]. exists x. split; [| exact Hp].
      replace (Z.to_nat (findIndex p l + 1))
        with (S (Z.to_nat (findIndex p l))) by lia.
      exact Hx.
Qed.

(** In a list with pairwise distinct ids the record that carries an id is
    the first one that does. *)
Lemma unique_id_first (l : list Article) (n : nat) (a : Article) :
  NoDup (map id l) -> nth_error l n = Some a ->
  forall m y, (m < n)%nat -> nth_error l m = Some y -> id y <> id a.
Proof.
  revert n. induction l as [| z l IH]; intros n Hnd Hn m y Hm Hy.
  - destruct n; discriminate.
  - simpl in Hnd. inversion Hnd as [| ? ? Hnotin Hnd']; subst.
    destruct n as [| n]; [lia |]. simpl in Hn.
    destruct m as [| m]; simpl in Hy.
    + injection Hy as <-. intros Heq. apply Hnotin. rewrite Heq.
      apply in_map. eapply nth_error_In; eauto.
    + apply (IH n Hnd' Hn m y); [lia | exact Hy].
Qed.

(** Filtering out an id that occurs once removes that one record. *)
Lemma filter_unique_id (l : list Article) (i : Z) :
  NoDup (map id l) -> In i (map id l) ->
  exists l1 a l2,
    l = l1 ++ a :: l2 /\ id a = i /\
    filter (fun article => negb (id article =? i)) l = l1 ++ l2.
Proof.
  induction l as [| z l IH]; simpl; intros Hnd Hin; [contradiction |].
  inversion Hnd as [| ? ? Hnotin Hnd']; subst.
  destruct (Z.eqb_spec (id z) i) as [He | Hne]; simpl.
  - exists [], z, l. repeat split; auto. simpl.
    clear IH Hin Hnd. induction l as [| y l IHl]; simpl; [reflexivity |].
    inversion Hnd' as [| ? ? Hy Hnd'']; subst.
    destruct (Z.eqb_spec (id y) (id z)) as [Hyz | Hyz]; simpl.
    + exfalso. apply Hnotin. left. auto.
    + f_equal. apply IHl; [| exact Hnd''].
      intros H. apply Hnotin. now right.
  - destruct Hin as [Hin | Hin]; [contradiction |].
    destruct (IH Hnd' Hin) as [l1 [a [l2 [-> [Ha Hf]]]]].
    exists (z :: l1), a, l2. repeat split; auto. simpl. now rewrite Hf.
Qed.

Lemma filter_absent_id (l : list Article) (i : Z) :
  ~ In i (map id l) ->
  filter (fun article => negb (id article =? i)) l = l.
Proof.
  induction l as [| z l IH]; simpl; intros Hnotin; [reflexivity |].
  destruct (Z.eqb_spec (id z) i) as [He | Hne]; simpl.
  - exfalso. apply Hnotin. now left.
  - f_equal. apply IH. intros H. apply Hnotin. now right.
Qed.

Lemma filter_present_id_shorter (l : list Article) (i : Z) :
  In i (map id l) ->
  (List.length (filter (fun article => negb (Z.eqb (id article) i)) l)
   < List.length l)%nat.
Proof.
  induction l as [| z l IH]; simpl; intros Hin; [contradiction |].
  pose proof (filter_length_le (fun article => negb (id article =? i)) l).
  destruct (Z.eqb_spec (id z) i) as [He | Hne]; simpl.
  - lia.
  - destruct Hin as [Hin | Hin]; [contradiction |].
    specialize (IH Hin). lia.
Qed.


(** ** The handlers, run *)

Lemma POST_run (b : PartialArticle) (w : World) :
  POST (Parsed b) w =
  let w1 := logged (FsWrite (Json (after_create b w))) (logged FsRead w) in
  if writable w
  then (Ok {| status := 200; payload := SuccessArticle (created b w) |},
        overwritten (Json (after_create b w)) w1)
  else (Ok {| status := 500;
              payload := Failure "Échec de l'écriture du fichier" |},
        failed_write w1).
Proof.
  unfold POST, try_catch, bind. rewrite readDataFile_run. simpl.
  rewrite reduce_max_id, writeDataFile_run. simpl.
  unfold after_create, created, max_id_or_0, push.
  destruct (writable w); reflexivity.
Qed.

Lemma POST_malformed (w : World) :
  POST Malformed w =
  (Ok {| status := 500; payload := Failure "Erreur serveur" |},
   logged FsRead w).
Proof.
  unfold POST, try_catch, bind. rewrite readDataFile_run. reflexivity.
Qed.

Lemma PUT_run (u : Article) (w : World) :
  PUT (Parsed u) w =
  if position u w =? -1
  then (Ok {| status := 404; payload := Failure "Article non trouvé" |},
        logged FsRead w)
  else
    let w1 := logged (FsWrite (Json (after_update u w))) (logged FsRead w) in
    if writable w
    then (Ok {| status := 200; payload := SuccessArticle u |},
          overwritten (Json (after_update u w)) w1)
    else (Ok {| status := 500;
                payload := Failure "Échec de l'écriture du fichier" |},
          failed_write w1).
Proof.
  unfold PUT, try_catch, bind. rewrite readDataFile_run. simpl.
  fold (position u w).
  destruct (position u w =? -1) eqn:Hp; [reflexivity |].
  rewrite writeDataFile_run. simpl. unfold after_update.
  destruct (writable w); reflexivity.
Qed.

Lemma PUT_malformed (w : World) :
  PUT Malformed w =
  (Ok {| status := 500; payload := Failure "Erreur serveur" |},
   logged FsRead w).
Proof.
  unfold PUT, try_catch, bind. rewrite readDataFile_run. reflexivity.
Qed.

Lemma DELETE_rejected (q : option string) (w : World) :
  falsy (parseInt (or_else q "0")) = true ->
  DELETE q w =
  (Ok {| status := 400; payload := Failure "ID manquant" |}, w).
Proof.
  intros H. unfold DELETE, try_catch. now rewrite H.
Qed.

Lemma DELETE_run (q : option string) (i : Z) (w : World) :
  parseInt (or_else q "0") = Some i -> i <> 0 ->
  DELETE q w =
  if (List.length (articles (after_delete i w))
      =? List.length (articles (document w)))%nat
  then (Ok {| status := 404; payload := Failure "Article non trouvé" |},
        logged FsRead w)
  else
    let w1 := logged (FsWrite (Json (after_delete i w))) (logged FsRead w) in
    if writable w
    then (Ok {| status := 200; payload := Success |},
          overwritten (Json (after_delete i w)) w1)
    else (Ok {| status := 500;
                payload := Failure "Échec de l'écriture du fichier" |},
          failed_write w1).
Proof.
  intros Hq Hi. unfold DELETE, try_catch. rewrite Hq. simpl.
  destruct (Z.eqb_spec i 0) as [| _]; [contradiction |].
  unfold bind. rewrite readDataFile_run. simpl. unfold after_delete. simpl.
  destruct (_ =? _)%nat; [reflexivity |].
  rewrite writeDataFile_run. simpl.
  destruct (writable w); reflexivity.
Qed.

Lemma GET_run (w : World) :
  GET w =
  (Ok {| status := 200; payload := Document (document w) |},
   logged FsRead w).
Proof. unfold GET, bind. rewrite readDataFile_run. reflexivity. Qed.

(** The two ways a Delete goes: stopped by the guard, or run with the
    non-zero id [parseInt] read. *)
Ltac delete_cases q w :=
  let Hf := fresh "Hf" in
  let Hq := fresh "Hq" in
  let i := fresh "i" in
  destruct (falsy (parseInt (or_else q "0"))) eqn:Hf;
  [ rewrite (DELETE_rejected q w Hf)
  | destruct (parseInt (or_else q "0")) as [i |] eqn:Hq; [| discriminate];
    simpl in Hf; apply Z.eqb_neq in Hf;
    rewrite (DELETE_run q i w Hq Hf) ].

Create Rewrite HintDb store.
#[local] Hint Rewrite document_logged : store.

(** ** Identifier assignment *)

Lemma created_id_safe (b : PartialArticle) (w : World) :
  Forall (fun i => i <= MAX_SAFE_INTEGER) (ids (document w)) ->
  id (created b w) = max_id_or_0 (articles (document w)) + 1.
Proof.
  intros H. unfold created. simpl id.
  apply Number_add_exact. now apply max_id_or_0_safe.
Qed.

Lemma creates_ids (bodies : list PartialArticle) :
  forall w : World,
    readable w = true -> writable w = true ->
    max_id_or_0 (articles (document w)) + Z.of_nat (List.length bodies)
      <= MAX_SAFE_INTEGER + 1 ->
    exists rs w',
      creates bodies w = (Ok rs, w') /\
      map assigned_id rs =
      map (fun k => Some (max_id_or_0 (articles (document w)) + 1
                          + Z.of_nat k))
          (seq 0 (List.length bodies)).
Proof.
  induction bodies as [| b bodies IH]; intros w Hr Hw Hmax.
  - exists [], w. split; reflexivity.
  - simpl creates. unfold bind at 1. rewrite POST_run, Hw. cbv zeta.
    set (w1 := overwritten _ _).
    pose proof (max_id_or_0_nonneg (articles (document w))) as Hnn.
    assert (Hid : id (created b w) = max_id_or_0 (articles (document w)) + 1).
    { unfold created. simpl id. apply Number_add_exact.
      simpl List.length in Hmax. lia. }
    assert (Hdoc : document w1 = after_create b w).
    { unfold w1. apply document_overwritten. exact Hr. }
    assert (Hnext : max_id_or_0 (articles (document w1))
                    = max_id_or_0 (articles (document w)) + 1).
    { rewrite Hdoc. unfold after_create. simpl articles.
      fold (push (articles (document w)) (created b w)).
      now apply max_id_or_0_push. }
    destruct (IH w1) as [rs [w' [Hrun Hids]]];
      [exact Hr | exact Hw | simpl List.length in Hmax; lia |].
    exists ({| status := 200; payload := SuccessArticle (created b w) |}
            :: rs), w'.
    unfold bind. rewrite Hrun. split; [reflexivity |].
    cbn [map List.length seq]. rewrite Hids, Hnext.
    change (assigned_id
              {| status := 200; payload := SuccessArticle (created b w) |})
      with (Some (id (created b w))).
    f_equal.
    + rewrite Hid. f_equal. lia.
    + rewrite <- seq_shift, map_map. apply map_ext. intros k.
      f_equal. lia.
Qed.

(** C1 as stated does not hold.  Ids are numbers, and from 2^53 on the
    sum [maxId + 1] is no longer the next integer: on a Document whose only
    id is 2^53 a Create answers with the id 2^53 again, not 2^53 + 1.  And
    Creates in a row yield 1, 2, 3, ... only when the file they write can
    be read back: on a file that can be written and not read, each of them
    loads the empty Document and yields 1. *)
Lemma create_does_not_always_add_one :
  ~ (forall (w : World) (b : PartialArticle) (a : Article),
        fst (POST (Parsed b) w) =
          Ok {| status := 200; payload := SuccessArticle a |} ->
        id a = fold_right Z.max 0 (ids (document w)) + 1) /\
  ~ (forall (w : World) (bodies : list PartialArticle),
        articles (document w) = [] -> writable w = true ->
        exists rs, fst (creates bodies w) = Ok rs /\
                   map assigned_id rs =
                   map (fun k => Some (Z.of_nat k))
                       (seq 1 (List.length bodies))).
Proof.
  split; intros H.
  - specialize (H {| disk := Some (Json {| articles :=
                       [mkArticle 9007199254740992 None None None None None
                                  None None None] |});
                     readable := true; writable := true;
                     write_failure := FailsBeforeOpen; trace := [] |}
                  (mkPartial None None None None None None None None None)
                  (mkArticle 9007199254740992 None None None None None None
                             None None)
                  eq_refl).
    vm_compute in H. discriminate.
  - destruct (H {| disk := Some (Json {| articles := [] |});
                   readable := false; writable := true;
                   write_failure := FailsBeforeOpen; trace := [] |}
                [mkPartial None None None None None None None None None;
                 mkPartial None None None None None None None None None]
                eq_refl eq_refl) as [rs [Hrun Hids]].
    vm_compute in Hrun. injection Hrun as <-.
    vm_compute in Hids. discriminate.
Qed.

(** C1, amended.  On a Document whose ids are safe integers (at most
    2^53 - 1) a Create gives the new record the id (maximum of the existing
    ids and 0) + 1: the record it appends to the loaded Document and hands
    to the store carries that id, and the response announces it when the
    write goes through; that maximum bounds every existing id, is 0 for no
    article and is otherwise 0 or one of the existing ids.  Hence a Create
    on an empty Document yields 1, Creates issued one after the other from
    an empty Document, on a file that can be read and written, yield 1, 2,
    3, ... in call order (up to 2^53), and a Create on ids 2, 5, 3 yields
    6. *)
Theorem create_assigns_max_plus_one :
  (forall (w : World) (b : PartialArticle),
      Forall (fun i => i <= MAX_SAFE_INTEGER) (ids (document w)) ->
      exists a : Article,
        id a = fold_right Z.max 0 (ids (document w)) + 1 /\
        trace (snd (POST (Parsed b) w)) =
          trace w ++
          [FsRead;
           FsWrite (Json {| articles := articles (document w) ++ [a] |})] /\
        (writable w = true ->
         fst (POST (Parsed b) w) =
           Ok {| status := 200; payload := SuccessArticle a |})) /\
  (forall d : DataFile,
      (forall a, In a (articles d) -> id a <= fold_right Z.max 0 (ids d)) /\
      (articles d = [] -> fold_right Z.max 0 (ids d) = 0) /\
      (fold_right Z.max 0 (ids d) = 0 \/
       In (fold_right Z.max 0 (ids d)) (ids d))) /\
  (forall (w : World) (b : PartialArticle),
      articles (document w) = [] -> writable w = true ->
      exists r, fst (POST (Parsed b) w) = Ok r /\ assigned_id r = Some 1) /\
  (forall (w : World) (bodies : list PartialArticle),
      articles (document w) = [] ->
      readable w = true -> writable w = true ->
      Z.of_nat (List.length bodies) <= MAX_SAFE_INTEGER + 1 ->
      exists rs, fst (creates bodies w) = Ok rs /\
                 map assigned_id rs =
                 map (fun k => Some (Z.of_nat k))
                     (seq 1 (List.length bodies))) /\
  (forall (w : World) (b : PartialArticle),
      ids (document w) = [2; 5; 3] -> writable w = true ->
      exists r, fst (POST (Parsed b) w) = Ok r /\ assigned_id r = Some 6).
Proof.
  split; [| split; [| split; [| split]]].
  - intros w b Hsafe. exists (created b w). rewrite POST_run. cbv zeta.
    split; [now apply created_id_safe | split].
    + destruct (writable w); simpl; rewrite ?failed_write_trace; simpl;
        rewrite <- app_assoc; reflexivity.
    + intros ->. reflexivity.
  - intros d. split; [| split].
    + intros a Ha. now apply max_id_or_0_upper.
    + unfold ids. now intros ->.
    + destruct (max_id_or_0_attained (articles d)) as [H | [a [Hin Ha]]];
        [now left | right].
      unfold ids. fold (max_id_or_0 (articles d)). rewrite <- Ha.
      now apply in_map.
  - intros w b Hd Hw. rewrite POST_run, Hw. eexists. split; [reflexivity |].
    unfold assigned_id, created. simpl. now rewrite Hd.
  - intros w bodies Hd Hr Hw Hlen.
    destruct (creates_ids bodies w Hr Hw) as [rs [w' [Hrun Hids]]].
    { rewrite Hd. unfold max_id_or_0. cbn [map fold_right]. lia. }
    exists rs. rewrite Hrun. split; [reflexivity |].
    rewrite Hids, Hd, <- seq_shift, map_map. apply map_ext.
    intros k. unfold max_id_or_0. cbn [map fold_right]. f_equal. lia.
  - intros w b Hd Hw. rewrite POST_run, Hw. eexists. split; [reflexivity |].
    unfold assigned_id, created, max_id_or_0. simpl.
    unfold ids in Hd. now rewrite Hd.
Qed.

Lemma create_assigns_max_plus_one_witness :
  exists r,
    fst (POST (Parsed (mkPartial None (Some "A. Smith") None None
                         (Some ["x"]) (Some ["m"]) (Some ["t"]) (Some ["r"])
                         None))
              {| disk := Some (Json {| articles :=
                          [mkArticle 2 None None None None None None None None;
                           mkArticle 5 None None None None None None None None;
                           mkArticle 3 None None None None None None None None]
                        |});
                 readable := true; writable := true;
                 write_failure := FailsBeforeOpen; trace := [] |}) = Ok r /\
    assigned_id r = Some 6.
Proof.
  apply (proj2 (proj2 (proj2 (proj2 create_assigns_max_plus_one)))).
  - reflexivity.
  - reflexivity.
Defined.

(** C10 as stated does not hold: the id of the returned article is not
    always the largest existing id plus 1.  On a Document whose only id is
    2^53 the sum is 2^53 again, whatever id the body carried. *)
Lemma create_id_is_not_always_max_plus_one :
  ~ (forall (w : World) (b : PartialArticle) (o : option Z) (a : Article),
        payload_article (fst (POST (Parsed (with_id b o)) w)) = Some a ->
        id a = fold_right Z.max 0 (ids (document w)) + 1).
Proof.
  intros H.
  specialize (H {| disk := Some (Json {| articles :=
                     [mkArticle 9007199254740992 None None None None None
                                None None None] |});
                   readable := true; writable := true;
                   write_failure := FailsBeforeOpen; trace := [] |}
                (mkPartial None (Some "A. Smith") None None None None None
                           None None)
                (Some 77)
                (mkArticle 9007199254740992 (Some "A. Smith") None None None
                           None None None None)
                eq_refl).
  vm_compute in H. discriminate.
Qed.

(** C10, amended.  Whatever [id] the body of a Create, a JSON object with
    fields of an article, carries, none or any integer, the handler
    overwrites it: the response and the world are those of the same body
    with any other [id]; the record handed to the
    store, stored when the write goes through and returned in the success
    response, has for id the number [maxId + 1], [maxId] being the maximum
    of the existing ids and 0, and that number is the integer [maxId + 1]
    when the existing ids are safe integers (at most 2^53 - 1); and no
    response of a Create carries an article with another id. *)
Theorem create_ignores_client_id :
  forall (w : World) (b : PartialArticle) (o : option Z),
    POST (Parsed (with_id b o)) w = POST (Parsed b) w /\
    (exists a : Article,
        id a = Number_add (fold_right Z.max 0 (ids (document w))) 1 /\
        (Forall (fun i => i <= MAX_SAFE_INTEGER) (ids (document w)) ->
         id a = fold_right Z.max 0 (ids (document w)) + 1) /\
        trace (snd (POST (Parsed (with_id b o)) w)) =
          trace w ++
          [FsRead;
           FsWrite (Json {| articles := articles (document w) ++ [a] |})] /\
        (writable w = true ->
         fst (POST (Parsed (with_id b o)) w) =
           Ok {| status := 200; payload := SuccessArticle a |} /\
         disk (snd (POST (Parsed (with_id b o)) w)) =
           Some (Json {| articles := articles (document w) ++ [a] |}))) /\
    (forall a : Article,
        payload_article (fst (POST (Parsed (with_id b o)) w)) = Some a ->
        id a = Number_add (fold_right Z.max 0 (ids (document w))) 1).
Proof.
  intros w b o. split; [| split].
  - rewrite !POST_run. reflexivity.
  - exists (created b w). rewrite POST_run. cbv zeta.
    split; [reflexivity | split; [| split]].
    + intros Hsafe. now apply created_id_safe.
    + destruct (writable w); simpl; rewrite ?failed_write_trace; simpl;
        rewrite <- app_assoc; reflexivity.
    + intros ->. split; reflexivity.
  - intros a. rewrite POST_run. cbv zeta.
    destruct (writable w); simpl; [| discriminate].
    intros [= <-]. reflexivity.
Qed.

Lemma create_ignores_client_id_witness :
  let w := {| disk := Some (Json {| articles :=
                 [mkArticle 4 (Some "B. Jones") None None None None None None
                            None] |});
              readable := true; writable := true;
              write_failure := FailsBeforeOpen; trace := [] |} in
  let b := mkPartial None (Some "A. Smith") None None None None None None
                     None in
  POST (Parsed (with_id b (Some 99))) w = POST (Parsed b) w /\
  payload_article (fst (POST (Parsed (with_id b (Some 99))) w)) =
    Some (mkArticle 5 (Some "A. Smith") None None None None None None None).
Proof.
  intros w b. split.
  - apply (proj1 (create_ignores_client_id w b (Some 99))).
  - reflexivity.
Defined.

(** ** Loading *)

(** C2.  A load never fails: in every world [readDataFile] returns a
    document and does nothing but read.  It returns the empty document when
    the file is absent, when it cannot be read and when its text is not
    JSON, and the parsed document when the file is read and parses. *)
Theorem load_never_fails :
  (forall w : World,
      exists d : DataFile, readDataFile w = (Ok d, logged FsRead w)) /\
  (forall w : World,
      disk w = None ->
      fst (readDataFile w) = Ok {| articles := [] |}) /\
  (forall w : World,
      readable w = false ->
      fst (readDataFile w) = Ok {| articles := [] |}) /\
  (forall (w : World) (raw : string),
      disk w = Some (NotJson raw) ->
      fst (readDataFile w) = Ok {| articles := [] |}) /\
  (forall (w : World) (d : DataFile),
      disk w = Some (Json d) -> readable w = true ->
      fst (readDataFile w) = Ok d).
Proof.
  repeat split.
  - intros w. exists (document w). apply readDataFile_run.
  - intros w H. unfold readDataFile, try_catch, bind, readFileSync.
    now rewrite H.
  - intros w H. unfold readDataFile, try_catch, bind, readFileSync.
    rewrite H. destruct (disk w); reflexivity.
  - intros w raw H. unfold readDataFile, try_catch, bind, readFileSync.
    rewrite H. destruct (readable w); reflexivity.
  - intros w d H Hr. unfold readDataFile, try_catch, bind, readFileSync.
    now rewrite H, Hr.
Qed.

Lemma load_never_fails_witness :
  fst (readDataFile {| disk := Some (NotJson "{ articles: ");
                       readable := true; writable := true;
              write_failure := FailsBeforeOpen; trace := [] |})
  = Ok {| articles := [] |}.
Proof.
  apply (proj1 (proj2 (proj2 (proj2 load_never_fails)))
           {| disk := Some (NotJson "{ articles: ");
              readable := true; writable := true;
              write_failure := FailsBeforeOpen; trace := [] |}
           "{ articles: ").
  reflexivity.
Defined.

(** ** Uniqueness of ids *)


(** After a write that threw the Document is the one before, or empty. *)
Lemma document_failed_write (w : World) :
  document (failed_write w) = document w \/
  document (failed_write w) = {| articles := [] |}.
Proof.
  unfold failed_write. destruct (write_failure w); [now left | right].
  rewrite document_cases. simpl. now destruct (readable w).
Qed.



Lemma after_update_ids (u : Article) (w : World) :
  position u w <> -1 -> ids (after_update u w) = ids (document w).
Proof.
  intros Hp. unfold ids, after_update, assign_index. simpl.
  pose proof (findIndex_range (fun article : Article => id article =? id u)
                (articles (document w))) as Hr.
  fold (position u w) in Hr.
  destruct (Z.ltb_spec (position u w) 0); [lia |].
  destruct (findIndex_found _ _ Hp) as [x [Hx Hid]].
  apply (assign_at_ids _ _ x); [exact Hx | now apply Z.eqb_eq].
Qed.





(** ** Update *)

Lemma position_absent (u : Article) (w : World) :
  ~ In (id u) (ids (document w)) -> position u w = -1.
Proof.
  intros H. apply findIndex_none. intros x Hx. apply Z.eqb_neq.
  intros Heq. apply H. rewrite <- Heq. now apply in_map.
Qed.

Lemma position_unique (u a : Article) (w : World) (i : nat) :
  NoDup (ids (document w)) ->
  nth_error (articles (document w)) i = Some a -> id a = id u ->
  position u w = Z.of_nat i.
Proof.
  intros Hnd Hi Hid. apply (findIndex_first _ _ i a Hi).
  - now apply Z.eqb_eq.
  - intros m y Hm Hy. apply Z.eqb_neq. rewrite <- Hid.
    exact (unique_id_first _ _ _ Hnd Hi m y Hm Hy).
Qed.

(** C5.  An Update whose id no article of the Document carries is answered
    404 (not found); the handler has read the file once and written
    nothing, and the file and the Document are what they were. *)
Theorem update_unknown_id_not_found :
  forall (w : World) (u : Article),
    ~ In (id u) (ids (document w)) ->
    fst (PUT (Parsed u) w) =
      Ok {| status := 404; payload := Failure "Article non trouvé" |} /\
    trace (snd (PUT (Parsed u) w)) = trace w ++ [FsRead] /\
    disk (snd (PUT (Parsed u) w)) = disk w /\
    document (snd (PUT (Parsed u) w)) = document w.
Proof.
  intros w u H. rewrite PUT_run, (position_absent u w H). simpl.
  repeat split. apply document_logged.
Qed.

Lemma update_unknown_id_not_found_witness :
  let w := {| disk := Some (Json {| articles :=
                 [mkArticle 1 (Some "A. Smith") None None None None None None
                            None] |});
              readable := true; writable := true;
              write_failure := FailsBeforeOpen; trace := [] |} in
  let u := mkArticle 7 (Some "B. Jones") None None None None None None None in
  fst (PUT (Parsed u) w) =
    Ok {| status := 404; payload := Failure "Article non trouvé" |} /\
  trace (snd (PUT (Parsed u) w)) = trace w ++ [FsRead] /\
  disk (snd (PUT (Parsed u) w)) = disk w /\
  document (snd (PUT (Parsed u) w)) = document w.
Proof.
  intros w u. apply update_unknown_id_not_found.
  vm_compute. intuition discriminate.
Defined.

(** C7.  In a Document with pairwise distinct ids that has, at index [i],
    a record with the id of the given Article, an Update hands the store the
    Document with the entry at [i] replaced by the given Article as it is
    (fields the Article lacks are not taken from the old record) and every
    other entry at its index with its value; when the write goes through
    this is the new content of the file and the response is the success
    response with the given Article. *)
Theorem update_replaces_whole_record :
  forall (w : World) (u a : Article) (i : nat),
    NoDup (ids (document w)) ->
    nth_error (articles (document w)) i = Some a ->
    id a = id u ->
    exists l' : list Article,
      nth_error l' i = Some u /\
      (forall j, j <> i ->
                 nth_error l' j = nth_error (articles (document w)) j) /\
      List.length l' = List.length (articles (document w)) /\
      trace (snd (PUT (Parsed u) w)) =
        trace w ++ [FsRead; FsWrite (Json {| articles := l' |})] /\
      (writable w = true ->
       fst (PUT (Parsed u) w) =
         Ok {| status := 200; payload := SuccessArticle u |} /\
       disk (snd (PUT (Parsed u) w)) = Some (Json {| articles := l' |})).
Proof.
  intros w u a i Hnd Hi Hid.
  pose proof (position_unique u a w i Hnd Hi Hid) as Hp.
  assert (Hlt : (i < List.length (articles (document w)))%nat)
    by (apply nth_error_Some; congruence).
  exists (assign_at (articles (document w)) i u).
  split; [now apply assign_at_same |].
  split; [intros j Hj; now apply assign_at_other |].
  split; [apply assign_at_length |].
  rewrite PUT_run, Hp.
  destruct (Z.eqb_spec (Z.of_nat i) (-1)); [lia |].
  unfold after_update, assign_index. rewrite Hp.
  destruct (Z.ltb_spec (Z.of_nat i) 0); [lia |].
  rewrite Nat2Z.id. cbv zeta. split.
  - destruct (writable w); simpl; rewrite ?failed_write_trace; simpl;
      rewrite <- app_assoc; reflexivity.
  - intros ->. split; reflexivity.
Qed.

Lemma update_replaces_whole_record_witness :
  let w := {| disk := Some (Json {| articles :=
                 [mkArticle 1 (Some "A. Smith") None (Some "Old") None None
                            None None (Some "keep?");
                  mkArticle 2 (Some "B. Jones") None None None None None None
                            None] |});
              readable := true; writable := true;
              write_failure := FailsBeforeOpen; trace := [] |} in
  let u := mkArticle 1 (Some "A. Smith") None (Some "New") None None None None
                     None in
  exists l' : list Article,
    nth_error l' 0 = Some u /\
    (forall j, j <> 0%nat ->
               nth_error l' j = nth_error (articles (document w)) j) /\
    List.length l' = List.length (articles (document w)) /\
    trace (snd (PUT (Parsed u) w)) =
      trace w ++ [FsRead; FsWrite (Json {| articles := l' |})] /\
    (writable w = true ->
     fst (PUT (Parsed u) w) =
       Ok {| status := 200; payload := SuccessArticle u |} /\
     disk (snd (PUT (Parsed u) w)) = Some (Json {| articles := l' |})).
Proof.
  intros w u.
  apply (update_replaces_whole_record w u
           (mkArticle 1 (Some "A. Smith") None (Some "Old") None None None
                      None (Some "keep?")) 0).
  - vm_compute. repeat constructor; simpl; intuition discriminate.
  - reflexivity.
  - reflexivity.
Defined.

(** ** Delete *)

(** C6.  For an id that passes the guard of Delete (it is not 0) and a
    Document with pairwise distinct ids: if a record carries the id, the
    Document splits around that record, and what Delete hands the store is
    the records before it followed by the records after it, in their order;
    when the write goes through this is the new content of the file and the
    response is the plain success.  If no record carries the id, the
    response is 404 (not found), the file was read once and not written,
    and the file and the Document are what they were. *)
Theorem delete_removes_that_record :
  (forall (w : World) (q : option string) (i : Z),
      parseInt (or_else q "0") = Some i -> i <> 0 ->
      NoDup (ids (document w)) ->
      In i (ids (document w)) ->
      exists (l1 : list Article) (a : Article) (l2 : list Article),
        articles (document w) = l1 ++ a :: l2 /\
        id a = i /\
        trace (snd (DELETE q w)) =
          trace w ++ [FsRead; FsWrite (Json {| articles := l1 ++ l2 |})] /\
        (writable w = true ->
         fst (DELETE q w) = Ok {| status := 200; payload := Success |} /\
         disk (snd (DELETE q w)) =
           Some (Json {| articles := l1 ++ l2 |}))) /\
  (forall (w : World) (q : option string) (i : Z),
      parseInt (or_else q "0") = Some i -> i <> 0 ->
      ~ In i (ids (document w)) ->
      fst (DELETE q w) =
        Ok {| status := 404; payload := Failure "Article non trouvé" |} /\
      trace (snd (DELETE q w)) = trace w ++ [FsRead] /\
      disk (snd (DELETE q w)) = disk w /\
      document (snd (DELETE q w)) = document w).
Proof.
  split.
  - intros w q i Hq Hi Hnd Hin.
    destruct (filter_unique_id _ i Hnd Hin) as [l1 [a [l2 [Hl [Ha Hf]]]]].
    exists l1, a, l2. split; [exact Hl | split; [exact Ha |]].
    pose proof (filter_present_id_shorter _ i Hin) as Hlen.
    assert (Hne : (List.length (articles (after_delete i w))
                   =? List.length (articles (document w)))%nat = false)
      by (apply Nat.eqb_neq; unfold after_delete; simpl; lia).
    rewrite (DELETE_run q i w Hq Hi), Hne.
    unfold after_delete. rewrite Hf. cbv zeta. split.
    + destruct (writable w); simpl; rewrite ?failed_write_trace; simpl;
        rewrite <- app_assoc; reflexivity.
    + intros ->. split; reflexivity.
  - intros w q i Hq Hi Hnotin.
    rewrite (DELETE_run q i w Hq Hi).
    unfold after_delete. simpl articles.
    rewrite (filter_absent_id _ i Hnotin), Nat.eqb_refl. simpl.
    repeat split. apply document_logged.
Qed.

Lemma delete_removes_that_record_witness :
  let w := {| disk := Some (Json {| articles :=
                 [mkArticle 1 (Some "A. Smith") None None None None None None
                            None;
                  mkArticle 2 (Some "B. Jones") None None None None None None
                            None;
                  mkArticle 3 (Some "C. Brown") None None None None None None
                            None] |});
              readable := true; writable := true;
              write_failure := FailsBeforeOpen; trace := [] |} in
  (exists (l1 : list Article) (a : Article) (l2 : list Article),
      articles (document w) = l1 ++ a :: l2 /\
      id a = 2 /\
      trace (snd (DELETE (Some "2") w)) =
        trace w ++ [FsRead; FsWrite (Json {| articles := l1 ++ l2 |})] /\
      (writable w = true ->
       fst (DELETE (Some "2") w) =
         Ok {| status := 200; payload := Success |} /\
       disk (snd (DELETE (Some "2") w)) =
         Some (Json {| articles := l1 ++ l2 |}))) /\
  fst (DELETE (Some "9") w) =
    Ok {| status := 404; payload := Failure "Article non trouvé" |}.
Proof.
  intros w. split.
  - apply (proj1 delete_removes_that_record w (Some "2") 2).
    + reflexivity.
    + lia.
    + vm_compute. repeat constructor; simpl; intuition discriminate.
    + vm_compute. tauto.
  - apply (proj2 delete_removes_that_record w (Some "9") 9).
    + reflexivity.
    + lia.
    + vm_compute. intuition discriminate.
Defined.

(** C4 as stated does not hold: the parameter [-5] is not a positive
    integer, and Delete neither answers 400 nor stays away from the store:
    it reads the file and answers 404. *)
Lemma delete_rejects_every_non_positive_id_fails :
  ~ (forall (q : option string) (w : World),
        ~ reads_as_positive q ->
        DELETE q w =
          (Ok {| status := 400; payload := Failure "ID manquant" |}, w)).
Proof.
  intros H.
  specialize (H (Some "-5")
                {| disk := None; readable := true; writable := true;
              write_failure := FailsBeforeOpen;
                   trace := [] |}).
  assert (Hnp : ~ reads_as_positive (Some "-5")).
  { intros [i [Hi Hpos]]. vm_compute in Hi. injection Hi as <-. lia. }
  specialize (H Hnp). vm_compute in H. discriminate.
Qed.

(** C4, amended.  Delete answers 400 (bad request) without any access to
    the store, leaving the world as it is, when the id parameter is absent,
    is empty, or is read by [parseInt] as no number or as 0.  Every other
    parameter, a negative integer included, passes the guard: the answer is
    not 400 and the first thing the handler does is read the file. *)
Theorem delete_guard :
  (forall (w : World) (q : option string),
      q = None \/ q = Some "" \/
      parseInt (or_else q "0") = None \/
      parseInt (or_else q "0") = Some 0 ->
      DELETE q w =
        (Ok {| status := 400; payload := Failure "ID manquant" |}, w)) /\
  (forall (w : World) (q : option string) (i : Z),
      parseInt (or_else q "0") = Some i -> i <> 0 ->
      exists (r : Response) (t : list Event),
        fst (DELETE q w) = Ok r /\ status r <> 400 /\
        trace (snd (DELETE q w)) = trace w ++ FsRead :: t).
Proof.
  split.
  - intros w q H. apply DELETE_rejected.
    destruct H as [-> | [-> | [-> | ->]]]; reflexivity.
  - intros w q i Hq Hi. rewrite (DELETE_run q i w Hq Hi).
    destruct (_ =? _)%nat.
    + eexists. exists []. simpl.
      split; [reflexivity |]. split; [simpl; lia | reflexivity].
    + cbv zeta. destruct (writable w); eexists; eexists; simpl;
        (split; [reflexivity |]); (split; [simpl; lia |]);
        rewrite ?failed_write_trace; simpl;
        rewrite <- app_assoc; reflexivity.
Qed.

Lemma delete_guard_witness :
  DELETE (Some "abc")
         {| disk := None; readable := true; writable := true;
              write_failure := FailsBeforeOpen; trace := [] |}
  = (Ok {| status := 400; payload := Failure "ID manquant" |},
     {| disk := None; readable := true; writable := true;
              write_failure := FailsBeforeOpen; trace := [] |}).
Proof.
  apply (proj1 delete_guard). right. right. left. reflexivity.
Defined.

(** ** Failed writes *)

Lemma position_present (u : Article) (w : World) :
  In (id u) (ids (document w)) -> position u w <> -1.
Proof.
  intros Hin Hp. apply in_map_iff in Hin. destruct Hin as [a [Ha Hin]].
  pose proof (proj1 (findIndex_none _ _) Hp a Hin) as Hf. simpl in Hf.
  apply Z.eqb_neq in Hf. congruence.
Qed.

(** Where a request gets to when the write does not go through: it leaves
    the world with a read at most, or it made the write that failed. *)
Lemma unwritable_dispatch (w : World) (r : Request) :
  writable w = false ->
  snd (dispatch r w) = w \/
  snd (dispatch r w) = logged FsRead w \/
  exists d : DataFile,
    snd (dispatch r w) =
    failed_write (logged (FsWrite (Json d)) (logged FsRead w)).
Proof.
  intros Hw. destruct r as [| [| b] | [| u] | q]; simpl dispatch.
  - rewrite GET_run. auto.
  - rewrite POST_malformed. auto.
  - rewrite POST_run, Hw. simpl. eauto.
  - rewrite PUT_malformed. auto.
  - rewrite PUT_run, Hw. destruct (position u w =? -1); simpl; eauto.
  - delete_cases q w; [auto |].
    rewrite Hw. destruct (_ =? _)%nat; simpl; eauto.
Qed.

Lemma dispatch_readable (w : World) (r : Request) :
  readable (snd (dispatch r w)) = readable w.
Proof.
  destruct r as [| [| b] | [| u] | q]; simpl dispatch.
  - now rewrite GET_run.
  - now rewrite POST_malformed.
  - rewrite POST_run. cbv zeta. destruct (writable w); simpl;
      [reflexivity | now rewrite (proj1 (failed_write_flags _))].
  - now rewrite PUT_malformed.
  - rewrite PUT_run.
    destruct (position u w =? -1); [reflexivity |].
    cbv zeta. destruct (writable w); simpl;
      [reflexivity | now rewrite (proj1 (failed_write_flags _))].
  - delete_cases q w; [reflexivity |].
    destruct (_ =? _)%nat; [reflexivity |].
    cbv zeta. destruct (writable w); simpl;
      [reflexivity | now rewrite (proj1 (failed_write_flags _))].
Qed.

(** The three mutating handlers when the write does not go through. *)
Lemma unwritable_POST (w : World) (b : PartialArticle) :
  writable w = false ->
  POST (Parsed b) w =
  (Ok {| status := 500;
         payload := Failure "Échec de l'écriture du fichier" |},
   failed_write (logged (FsWrite (Json (after_create b w)))
                        (logged FsRead w))).
Proof. intros Hw. now rewrite POST_run, Hw. Qed.

Lemma unwritable_PUT (w : World) (u : Article) :
  writable w = false -> In (id u) (ids (document w)) ->
  PUT (Parsed u) w =
  (Ok {| status := 500;
         payload := Failure "Échec de l'écriture du fichier" |},
   failed_write (logged (FsWrite (Json (after_update u w)))
                        (logged FsRead w))).
Proof.
  intros Hw Hin. rewrite PUT_run, Hw.
  destruct (Z.eqb_spec (position u w) (-1)) as [Hp | _]; [| reflexivity].
  now apply position_present in Hin.
Qed.

Lemma unwritable_DELETE (w : World) (q : option string) (i : Z) :
  writable w = false ->
  parseInt (or_else q "0") = Some i -> i <> 0 ->
  In i (ids (document w)) ->
  DELETE q w =
  (Ok {| status := 500;
         payload := Failure "Échec de l'écriture du fichier" |},
   failed_write (logged (FsWrite (Json (after_delete i w)))
                        (logged FsRead w))).
Proof.
  intros Hw Hq Hi Hin. rewrite (DELETE_run q i w Hq Hi), Hw.
  pose proof (filter_present_id_shorter _ i Hin) as Hlen.
  destruct (Nat.eqb_spec (List.length (articles (after_delete i w)))
                         (List.length (articles (document w))))
    as [He | _]; [| reflexivity].
  unfold after_delete in He. simpl in He. lia.
Qed.

Lemma failed_write_before_open (w : World) :
  write_failure w = FailsBeforeOpen -> failed_write w = w.
Proof. unfold failed_write. now intros ->. Qed.

Lemma failed_write_after_open (w : World) (remains : string) :
  write_failure w = FailsAfterOpen remains ->
  failed_write w = overwritten (NotJson remains) w.
Proof. unfold failed_write. now intros ->. Qed.

Lemma GET_after_truncation (w : World) (remains : string) :
  fst (GET (overwritten (NotJson remains) w)) =
  Ok {| status := 200; payload := Document {| articles := [] |} |}.
Proof.
  rewrite GET_run, document_cases. simpl. reflexivity.
Qed.

(** C8 as stated does not hold: a write can fail after [fs.writeFileSync]
    opened the file, which empties it.  The Create is answered 500, and the
    file, which held a Document with one record, is left empty. *)
Lemma failed_write_can_empty_the_file :
  ~ (forall (w : World) (b : PartialArticle),
        writable w = false ->
        fst (POST (Parsed b) w) =
          Ok {| status := 500;
                payload := Failure "Échec de l'écriture du fichier" |} /\
        disk (snd (POST (Parsed b) w)) = disk w).
Proof.
  intros H.
  destruct (H {| disk := Some (Json {| articles :=
                   [mkArticle 1 (Some "A. Smith") None None None None None
                              None None] |});
                 readable := true; writable := false;
                 write_failure := FailsAfterOpen ""; trace := [] |}
              (mkPartial None (Some "B. Jones") None None None None None None
                         None)
              eq_refl) as [_ Hdisk].
  vm_compute in Hdisk. discriminate.
Qed.

(** C8, amended.  In a world where the write fails, every mutating
    operation that gets as far as the write answers 500 with the
    write-failure message: a Create of any body, an Update of an id the
    Document has, a Delete of an id that passes the guard and that the
    Document has.  No handler touches the file after the failed write, so
    the file is what that write left.  When the write failed before the
    file was opened, the file keeps the content it had, whatever the
    request, and a List that follows returns what a List before the
    request returned.  When it failed after the file was opened, the file
    holds the part of the text that was written, which is not a Document,
    and a List that follows returns the empty Document. *)
Theorem failed_write_and_the_file :
  forall w : World,
    writable w = false ->
    (forall b : PartialArticle,
        fst (POST (Parsed b) w) =
          Ok {| status := 500;
                payload := Failure "Échec de l'écriture du fichier" |}) /\
    (forall u : Article,
        In (id u) (ids (document w)) ->
        fst (PUT (Parsed u) w) =
          Ok {| status := 500;
                payload := Failure "Échec de l'écriture du fichier" |}) /\
    (forall (q : option string) (i : Z),
        parseInt (or_else q "0") = Some i -> i <> 0 ->
        In i (ids (document w)) ->
        fst (DELETE q w) =
          Ok {| status := 500;
                payload := Failure "Échec de l'écriture du fichier" |}) /\
    (write_failure w = FailsBeforeOpen ->
     forall r : Request,
       disk (snd (dispatch r w)) = disk w /\
       fst (GET (snd (dispatch r w))) = fst (GET w)) /\
    (forall remains : string,
        write_failure w = FailsAfterOpen remains ->
        forall r : Request,
          ((exists b, r = Create (Parsed b)) \/
           (exists u, r = Update (Parsed u) /\
                      In (id u) (ids (document w))) \/
           (exists q i, r = Delete q /\
                        parseInt (or_else q "0") = Some i /\ i <> 0 /\
                        In i (ids (document w)))) ->
          disk (snd (dispatch r w)) = Some (NotJson remains) /\
          fst (GET (snd (dispatch r w))) =
            Ok {| status := 200;
                  payload := Document {| articles := [] |} |}).
Proof.
  intros w Hw. split; [| split; [| split; [| split]]].
  - intros b. now rewrite unwritable_POST.
  - intros u Hin. now rewrite unwritable_PUT.
  - intros q i Hq Hi Hin. now rewrite (unwritable_DELETE w q i).
  - intros Hmode r.
    assert (Hsame : disk (snd (dispatch r w)) = disk w).
    { destruct (unwritable_dispatch w r Hw) as [-> | [-> | [d ->]]];
        try reflexivity.
      now rewrite failed_write_before_open. }
    split; [exact Hsame |].
    rewrite !GET_run. simpl. rewrite !document_cases, Hsame.
    now rewrite dispatch_readable.
  - intros remains Hmode r Hr.
    assert (Hrun : exists d, snd (dispatch r w) =
              overwritten (NotJson remains)
                (logged (FsWrite (Json d)) (logged FsRead w))).
    { destruct Hr as [[b ->] | [[u [-> Hin]] | [q [i [-> [Hq [Hi Hin]]]]]]];
        simpl dispatch.
      - rewrite unwritable_POST by exact Hw. simpl snd.
        rewrite (failed_write_after_open _ remains) by exact Hmode. eauto.
      - rewrite unwritable_PUT by assumption. simpl snd.
        rewrite (failed_write_after_open _ remains) by exact Hmode. eauto.
      - rewrite (unwritable_DELETE w q i) by assumption. simpl snd.
        rewrite (failed_write_after_open _ remains) by exact Hmode. eauto. }
    destruct Hrun as [d ->]. split; [reflexivity |].
    apply GET_after_truncation.
Qed.

Lemma failed_write_and_the_file_witness :
  let w := {| disk := Some (Json {| articles :=
                 [mkArticle 1 (Some "A. Smith") None None None None None None
                            None] |});
              readable := true; writable := false;
              write_failure := FailsBeforeOpen; trace := [] |} in
  fst (DELETE (Some "1") w) =
    Ok {| status := 500;
          payload := Failure "Échec de l'écriture du fichier" |} /\
  disk (snd (dispatch (Delete (Some "1")) w)) = disk w.
Proof.
  intros w.
  destruct (failed_write_and_the_file w eq_refl) as [_ [_ [Hdel [Hall _]]]].
  split.
  - apply (Hdel (Some "1") 1).
    + reflexivity.
    + lia.
    + vm_compute. tauto.
  - apply (Hall eq_refl (Delete (Some "1"))).
Defined.

(** ** Round trip *)

(** C9 as stated does not hold: on a file that can be written and not
    read, a Create succeeds, and the List that follows, which cannot read
    the file, returns the empty Document, without the record. *)
Lemma list_after_create_needs_a_readable_file :
  ~ (forall (w : World) (b : PartialArticle) (a : Article),
        fst (POST (Parsed b) w) =
          Ok {| status := 200; payload := SuccessArticle a |} ->
        exists l : list Article,
          fst (GET (snd (POST (Parsed b) w))) =
            Ok {| status := 200;
                  payload := Document {| articles := l |} |} /\
          In a l).
Proof.
  intros H.
  destruct (H {| disk := Some (Json {| articles := [] |});
                 readable := false; writable := true;
                 write_failure := FailsBeforeOpen; trace := [] |}
              (mkPartial None (Some "A. Smith") None None None None None None
                         None)
              (mkArticle 1 (Some "A. Smith") None None None None None None
                         None)
              eq_refl) as [l [Hget Hin]].
  vm_compute in Hget. injection Hget as <-. contradiction.
Qed.

(** C9, amended.  After a successful Create (the response is the success
    response with an article) on a file that can be read, the List that
    follows returns the Document made of all the records that were there
    before, in their order, followed by the article of the response; that
    article has the id the service computed ([maxId + 1] as a number, the
    integer [maxId + 1] when the ids are safe integers) and every field of
    the body as submitted. *)
Theorem list_after_create :
  forall (w : World) (b : PartialArticle) (a : Article),
    readable w = true ->
    fst (POST (Parsed b) w) =
      Ok {| status := 200; payload := SuccessArticle a |} ->
    fst (GET (snd (POST (Parsed b) w))) =
      Ok {| status := 200;
            payload :=
              Document {| articles := articles (document w) ++ [a] |} |} /\
    id a = Number_add (fold_right Z.max 0 (ids (document w))) 1 /\
    (Forall (fun i => i <= MAX_SAFE_INTEGER) (ids (document w)) ->
     id a = fold_right Z.max 0 (ids (document w)) + 1) /\
    same_fields b a.
Proof.
  intros w b a Hr. rewrite POST_run. cbv zeta.
  destruct (writable w); simpl; [| discriminate].
  intros [= <-]. split; [| split; [| split]].
  - rewrite GET_run. simpl. rewrite document_overwritten by exact Hr.
    reflexivity.
  - reflexivity.
  - intros Hsafe. now apply created_id_safe.
  - unfold same_fields, created. simpl. repeat split.
Qed.

Lemma list_after_create_witness :
  let w := {| disk := None; readable := true; writable := true;
              write_failure := FailsBeforeOpen; trace := [] |} in
  let b := mkPartial None (Some "A. Smith") None None (Some ["x"])
                     (Some ["m"]) (Some ["t"]) (Some ["r"]) None in
  let a := mkArticle 1 (Some "A. Smith") None None (Some ["x"]) (Some ["m"])
                     (Some ["t"]) (Some ["r"]) None in
  fst (GET (snd (POST (Parsed b) w))) =
    Ok {| status := 200;
          payload :=
            Document {| articles := articles (document w) ++ [a] |} |} /\
  id a = Number_add (fold_right Z.max 0 (ids (document w))) 1 /\
  (Forall (fun i => i <= MAX_SAFE_INTEGER) (ids (document w)) ->
   id a = fold_right Z.max 0 (ids (document w)) + 1) /\
  same_fields b a.
Proof.
  intros w b a. apply list_after_create.
  - reflexivity.
  - reflexivity.
Defined.

(** ** The scenario of the specification, run *)

Example scenario_run :
  fst (scenario {| disk := None; readable := true; writable := true;
              write_failure := FailsBeforeOpen;
                   trace := [] |}) =
  Ok [ {| status := 200;
          payload := SuccessArticle
            (mkArticle 1 (Some "A. Smith") None None (Some ["x"])
                       (Some ["m"]) (Some ["t"]) (Some ["r"]) None) |};
       {| status := 200;
          payload := SuccessArticle
            (mkArticle 1 (Some "A. Smith") None (Some "A title") (Some ["x"])
                       (Some ["m"]) (Some ["t"]) (Some ["r"]) None) |};
       {| status := 200;
          payload := Document {| articles :=
            [mkArticle 1 (Some "A. Smith") None (Some "A title") (Some ["x"])
                       (Some ["m"]) (Some ["t"]) (Some ["r"]) None] |} |};
       {| status := 200; payload := Success |};
       {| status := 200; payload := Document {| articles := [] |} |} ].
Proof. reflexivity. Qed.

(** ** Further properties of the route handlers *)

(** A request, run: the cases of [dispatch] with the handler rewritten to
    what it does. *)
Ltac run_request r w :=
  let b := fresh "b" in
  let u := fresh "u" in
  let q := fresh "q" in
  destruct r as [| [| b] | [| u] | q]; simpl dispatch;
  [ rewrite GET_run
  | rewrite POST_malformed
  | rewrite POST_run; cbv zeta
  | rewrite PUT_malformed
  | rewrite PUT_run; cbv zeta
  | delete_cases q w ].

(** X1.  No handler lets an exception out.  With the data file absent,
    unreadable, not JSON text or the JSON text of a Document, and the body
    not JSON text or a JSON object with fields of an article, whether or
    not the file can be written and however a write fails, every request
    is answered with status 200, 400, 404 or 500; a List is always
    answered 200; a Create, an Update or a Delete is answered with a
    failure object exactly when the status is not 200. *)
Theorem every_request_is_answered :
  forall (r : Request) (w : World),
    exists response : Response,
      fst (dispatch r w) = Ok response /\
      In (status response) [200; 400; 404; 500] /\
      (r = List_ -> status response = 200) /\
      (r <> List_ ->
       (status response = 200 <->
        forall message, payload response <> Failure message)).
Proof.
  intros r w.
  run_request r w;
    repeat match goal with
           | |- context [if ?c then _ else _] => destruct c
           end;
    eexists; (split; [reflexivity |]); simpl;
    (split; [tauto |]);
    (split; [intros H; first [reflexivity | discriminate H] |]);
    intros Hr; try (exfalso; apply Hr; reflexivity);
    (split; [intros H; first [discriminate H | intros m; discriminate]
            | intros H; first [reflexivity | exfalso; eapply H; reflexivity]]).
Qed.

Lemma every_request_is_answered_witness :
  exists response : Response,
    fst (dispatch (Delete (Some "abc"))
           {| disk := None; readable := true; writable := true;
              write_failure := FailsBeforeOpen; trace := [] |}) =
      Ok response /\
    status response = 400.
Proof.
  destruct (every_request_is_answered
              (Delete (Some "abc"))
              {| disk := None; readable := true; writable := true;
                 write_failure := FailsBeforeOpen; trace := [] |})
    as [response [Hrun _]].
  exists response. split; [exact Hrun |].
  vm_compute in Hrun. injection Hrun as <-. reflexivity.
Defined.

(** X2.  Each request makes at most one read of the file and at most one write,
    the read first; what is written is the JSON text of a document; a List
    makes the read and no write. *)
Theorem one_read_then_at_most_one_write :
  forall (r : Request) (w : World),
    (trace (snd (dispatch r w)) = trace w \/
     trace (snd (dispatch r w)) = trace w ++ [FsRead] \/
     exists d : DataFile,
       trace (snd (dispatch r w)) = trace w ++ [FsRead; FsWrite (Json d)]) /\
    trace (snd (dispatch List_ w)) = trace w ++ [FsRead].
Proof.
  intros r w. split; [| simpl; now rewrite GET_run].
  run_request r w;
    repeat match goal with
           | |- context [if ?c then _ else _] => destruct c
           end;
    simpl; rewrite ?failed_write_trace; simpl; rewrite <- ?app_assoc; simpl;
    eauto.
Qed.

Lemma document_truncated (remains : string) (w : World) :
  document (overwritten (NotJson remains) w) = {| articles := [] |}.
Proof. rewrite document_cases. simpl. now destruct (readable w). Qed.

(** X3.  What a request that is answered with an error status (400, 404 or
    500) leaves behind.  Unless the answer is the failure of the write,
    the file and the Document are as they were; so they are when the write
    failed before the file was opened.  When the answer is the failure of
    a write that failed after the file was opened, the file holds what the
    write left of the text, and the Document read from it is empty. *)
Theorem refused_request_and_the_file :
  forall (r : Request) (w : World) (response : Response),
    fst (dispatch r w) = Ok response ->
    status response <> 200 ->
    (payload response <> Failure "Échec de l'écriture du fichier" \/
     write_failure w = FailsBeforeOpen ->
     disk (snd (dispatch r w)) = disk w /\
     document (snd (dispatch r w)) = document w) /\
    (payload response = Failure "Échec de l'écriture du fichier" ->
     writable w = false /\
     forall remains : string,
       write_failure w = FailsAfterOpen remains ->
       disk (snd (dispatch r w)) = Some (NotJson remains) /\
       document (snd (dispatch r w)) = {| articles := [] |}).
Proof.
  intros r w response.
  run_request r w;
    repeat match goal with
           | |- context [if ?c then _ else _] => destruct c eqn:?
           end;
    simpl; intros [= <-] Hs; simpl in Hs; try contradiction;
    unfold failed_write; simpl;
    (split;
     [ intros [Hp | Hm];
       [ first [ now autorewrite with store
               | exfalso; apply Hp; reflexivity ]
       | first [ now autorewrite with store
               | rewrite Hm; now autorewrite with store ] ]
     | intros Hp; first [discriminate Hp | idtac];
       (split; [reflexivity |]); intros remains Hm; rewrite Hm;
       (split; [reflexivity | apply document_truncated]) ]).
Qed.

Lemma refused_request_and_the_file_witness :
  let w := {| disk := Some (Json {| articles :=
                 [mkArticle 1 (Some "A. Smith") None None None None None None
                            None] |});
              readable := true; writable := false;
              write_failure := FailsAfterOpen ""; trace := [] |} in
  (disk (snd (dispatch (Update Malformed) w)) = disk w /\
   document (snd (dispatch (Update Malformed) w)) = document w) /\
  (disk (snd (dispatch (Delete (Some "1")) w)) = Some (NotJson "") /\
   document (snd (dispatch (Delete (Some "1")) w)) = {| articles := [] |}).
Proof.
  intros w. split.
  - apply (refused_request_and_the_file (Update Malformed) w
             {| status := 500; payload := Failure "Erreur serveur" |}).
    + reflexivity.
    + simpl. lia.
    + left. simpl. discriminate.
  - apply (refused_request_and_the_file (Delete (Some "1")) w
             {| status := 500;
                payload := Failure "Échec de l'écriture du fichier" |}).
    + reflexivity.
    + simpl. lia.
    + reflexivity.
    + reflexivity.
Defined.

(** What a handler answers and leaves in the file does not depend on the
    calls made before, only on the file and on whether it can be read and
    written. *)
Lemma failed_write_logged (e : Event) (c : Content) (w : World) :
  disk (failed_write (logged (FsWrite c) (logged FsRead (logged e w)))) =
  disk (failed_write (logged (FsWrite c) (logged FsRead w))).
Proof. unfold failed_write. simpl. now destruct (write_failure w). Qed.

Lemma dispatch_logged (e : Event) (r : Request) (w : World) :
  fst (dispatch r (logged e w)) = fst (dispatch r w) /\
  disk (snd (dispatch r (logged e w))) = disk (snd (dispatch r w)).
Proof.
  destruct r as [| [| b] | [| u] | q]; simpl dispatch.
  - rewrite !GET_run. simpl. now autorewrite with store.
  - rewrite !POST_malformed. now simpl.
  - rewrite !POST_run. cbv zeta. simpl writable.
    unfold after_create, created. autorewrite with store.
    destruct (writable w); simpl; [auto |].
    split; [reflexivity | apply failed_write_logged].
  - rewrite !PUT_malformed. now simpl.
  - rewrite !PUT_run. cbv zeta. simpl writable.
    unfold after_update, position. autorewrite with store.
    destruct (_ =? -1); [now simpl |].
    destruct (writable w); simpl; [auto |].
    split; [reflexivity | apply failed_write_logged].
  - destruct (falsy (parseInt (or_else q "0"))) eqn:Hf.
    + now rewrite !(DELETE_rejected q _ Hf).
    + destruct (parseInt (or_else q "0")) as [i |] eqn:Hq;
        [| discriminate].
      simpl in Hf. apply Z.eqb_neq in Hf.
      rewrite !(DELETE_run q i _ Hq Hf). cbv zeta. simpl writable.
      unfold after_delete. autorewrite with store.
      destruct (_ =? _)%nat; [now simpl |].
      destruct (writable w); simpl; [auto |].
      split; [reflexivity | apply failed_write_logged].
Qed.

(** X4.  A List changes nothing and does not interfere: the file is as before,
    and any request (another List included) is answered after a List as it
    would have been without it, and leaves the same file. *)
Theorem list_is_read_only :
  forall (w : World) (r : Request),
    disk (snd (GET w)) = disk w /\
    fst (dispatch r (snd (GET w))) = fst (dispatch r w) /\
    disk (snd (dispatch r (snd (GET w)))) = disk (snd (dispatch r w)).
Proof.
  intros w r. rewrite GET_run. simpl snd.
  split; [reflexivity | apply dispatch_logged].
Qed.

(** ** Sequences of requests *)

Lemma POST_success (b : PartialArticle) (w : World) (a : Article) :
  fst (POST (Parsed b) w) =
    Ok {| status := 200; payload := SuccessArticle a |} ->
  writable w = true /\ a = created b w /\
  snd (POST (Parsed b) w) =
    overwritten (Json (after_create b w))
      (logged (FsWrite (Json (after_create b w))) (logged FsRead w)).
Proof.
  rewrite POST_run. cbv zeta.
  destruct (writable w); simpl; [| discriminate].
  intros [= <-]. auto.
Qed.

Lemma DELETE_success (q : option string) (w : World) :
  fst (DELETE q w) = Ok {| status := 200; payload := Success |} ->
  exists i : Z,
    parseInt (or_else q "0") = Some i /\ i <> 0 /\ writable w = true /\
    In i (ids (document w)) /\
    snd (DELETE q w) =
      overwritten (Json (after_delete i w))
        (logged (FsWrite (Json (after_delete i w))) (logged FsRead w)).
Proof.
  delete_cases q w; [discriminate |].
  destruct (Nat.eqb_spec (List.length (articles (after_delete i w)))
                         (List.length (articles (document w))))
    as [He | Hne]; [discriminate |].
  cbv zeta. destruct (writable w); simpl; [| discriminate].
  intros _. exists i. repeat split; auto.
  destruct (in_dec Z.eq_dec i (ids (document w))) as [Hin | Hnotin];
    [exact Hin | exfalso].
  apply Hne. unfold after_delete. simpl.
  now rewrite (filter_absent_id _ i Hnotin).
Qed.

Lemma filter_twice {A} (f : A -> bool) (l : list A) :
  filter f (filter f l) = filter f l.
Proof.
  induction l as [| x l IH]; simpl; [reflexivity |].
  destruct (f x) eqn:Hx; simpl; [rewrite Hx; f_equal |]; exact IH.
Qed.

Lemma document_eta (d : DataFile) : {| articles := articles d |} = d.
Proof. now destruct d. Qed.

(** The document a world holds once a write of [d] went through. *)
Lemma document_written (d : DataFile) (e1 e2 : Event) (w : World) :
  document (overwritten (Json d) (logged e1 (logged e2 w))) =
  if readable w then d else {| articles := [] |}.
Proof. rewrite document_cases. reflexivity. Qed.

(** X5.  A Delete that succeeded cannot be repeated: the same Delete again is
    answered 404 (not found) and leaves the file as the first one left
    it. *)
Theorem delete_twice_is_not_found :
  forall (q : option string) (w : World),
    fst (DELETE q w) = Ok {| status := 200; payload := Success |} ->
    fst (DELETE q (snd (DELETE q w))) =
      Ok {| status := 404; payload := Failure "Article non trouvé" |} /\
    disk (snd (DELETE q (snd (DELETE q w)))) = disk (snd (DELETE q w)).
Proof.
  intros q w Hok.
  destruct (DELETE_success q w Hok) as [i [Hq [Hi [Hw [Hin Hsnd]]]]].
  rewrite Hsnd. set (w1 := overwritten _ _).
  rewrite (DELETE_run q i w1 Hq Hi).
  assert (Hsame : articles (after_delete i w1) = articles (document w1)).
  { unfold after_delete, w1. rewrite document_written. simpl.
    destruct (readable w); simpl; [apply filter_twice | reflexivity]. }
  rewrite Hsame, Nat.eqb_refl. simpl. auto.
Qed.

Lemma delete_twice_is_not_found_witness :
  let w := {| disk := Some (Json {| articles :=
                 [mkArticle 1 (Some "A. Smith") None None None None None None
                            None;
                  mkArticle 2 (Some "B. Jones") None None None None None None
                            None] |});
              readable := true; writable := true;
              write_failure := FailsBeforeOpen; trace := [] |} in
  fst (DELETE (Some "2") (snd (DELETE (Some "2") w))) =
    Ok {| status := 404; payload := Failure "Article non trouvé" |} /\
  disk (snd (DELETE (Some "2") (snd (DELETE (Some "2") w)))) =
    disk (snd (DELETE (Some "2") w)).
Proof.
  intros w. apply delete_twice_is_not_found. reflexivity.
Defined.

Lemma filter_created (l : list Article) (a : Article) :
  id a = max_id_or_0 l + 1 ->
  filter (fun article : Article => negb (id article =? id a)) (l ++ [a]) = l.
Proof.
  intros Ha. rewrite filter_app. simpl. rewrite Z.eqb_refl. simpl.
  rewrite app_nil_r. apply filter_absent_id.
  intros Hin. apply in_map_iff in Hin. destruct Hin as [x [Hx Hin]].
  pose proof (max_id_or_0_upper _ _ Hin). lia.
Qed.

Lemma create_delete_run :
  forall (w : World) (b : PartialArticle) (a : Article) (q : option string),
    readable w = true ->
    Forall (fun i => i <= MAX_SAFE_INTEGER) (ids (document w)) ->
    fst (POST (Parsed b) w) =
      Ok {| status := 200; payload := SuccessArticle a |} ->
    parseInt (or_else q "0") = Some (id a) ->
    fst (DELETE q (snd (POST (Parsed b) w))) =
      Ok {| status := 200; payload := Success |} /\
    document (snd (DELETE q (snd (POST (Parsed b) w)))) = document w.
Proof.
  intros w b a q Hr Hsafe Hok Hq.
  destruct (POST_success b w a Hok) as [Hw [-> ->]].
  set (w1 := overwritten _ _).
  assert (Hdoc : document w1 = after_create b w).
  { unfold w1. rewrite document_written. now rewrite Hr. }
  pose proof (created_id_safe b w Hsafe) as Hid.
  assert (Hi : id (created b w) <> 0).
  { pose proof (max_id_or_0_nonneg (articles (document w))). lia. }
  assert (Hf : after_delete (id (created b w)) w1 = document w).
  { unfold after_delete. rewrite Hdoc. unfold after_create. simpl articles.
    rewrite filter_created by exact Hid. apply document_eta. }
  rewrite (DELETE_run q _ w1 Hq Hi), Hf, Hdoc.
  unfold after_create. simpl articles. rewrite length_app. simpl.
  destruct (Nat.eqb_spec (List.length (articles (document w)))
                         (List.length (articles (document w)) + 1))
    as [He | _]; [lia |].
  cbv zeta. simpl. rewrite Hw. simpl. split; [reflexivity |].
  rewrite document_written. unfold w1. simpl. now rewrite Hr.
Qed.

(** X6.  Create and Delete undo each other: after a successful Create on a file
    that can be read and whose ids are safe integers (at most 2^53 - 1),
    the Delete of the id just assigned succeeds and the Document is again
    the Document there was before the Create, the same records in the same
    order. *)
Theorem create_then_delete_restores :
  forall (w : World) (b : PartialArticle) (a : Article) (q : option string),
    readable w = true ->
    Forall (fun i => i <= MAX_SAFE_INTEGER) (ids (document w)) ->
    fst (POST (Parsed b) w) =
      Ok {| status := 200; payload := SuccessArticle a |} ->
    parseInt (or_else q "0") = Some (id a) ->
    fst (DELETE q (snd (POST (Parsed b) w))) =
      Ok {| status := 200; payload := Success |} /\
    document (snd (DELETE q (snd (POST (Parsed b) w)))) = document w.
Proof. exact create_delete_run. Qed.

Lemma create_then_delete_restores_witness :
  let w := {| disk := Some (Json {| articles :=
                 [mkArticle 4 (Some "B. Jones") None None None None None None
                            None] |});
              readable := true; writable := true;
              write_failure := FailsBeforeOpen; trace := [] |} in
  let b := mkPartial None (Some "A. Smith") None None None None None None
                     None in
  fst (DELETE (Some "5") (snd (POST (Parsed b) w))) =
    Ok {| status := 200; payload := Success |} /\
  document (snd (DELETE (Some "5") (snd (POST (Parsed b) w)))) = document w.
Proof.
  intros w b.
  apply (create_then_delete_restores w b
           (mkArticle 5 (Some "A. Smith") None None None None None None
                      None)).
  - reflexivity.
  - change (Forall (fun i => i <= MAX_SAFE_INTEGER) [4]).
    unfold MAX_SAFE_INTEGER. constructor; [lia | constructor].
  - reflexivity.
  - reflexivity.
Defined.

(** X7.  An id is not kept for the record it was given to: on a file that
    can be read and whose ids are safe integers (at most 2^53 - 1), once
    the record with the id a Create assigned is deleted, the next Create
    assigns that same id again. *)
Theorem deleted_id_is_assigned_again :
  forall (w : World) (b b' : PartialArticle) (a : Article)
         (q : option string),
    readable w = true ->
    Forall (fun i => i <= MAX_SAFE_INTEGER) (ids (document w)) ->
    fst (POST (Parsed b) w) =
      Ok {| status := 200; payload := SuccessArticle a |} ->
    parseInt (or_else q "0") = Some (id a) ->
    exists a' : Article,
      fst (POST (Parsed b') (snd (DELETE q (snd (POST (Parsed b) w))))) =
        Ok {| status := 200; payload := SuccessArticle a' |} /\
      id a' = id a.
Proof.
  intros w b b' a q Hr Hsafe Hok Hq.
  destruct (create_delete_run w b a q Hr Hsafe Hok Hq) as [Hdel Hdoc].
  destruct (POST_success b w a Hok) as [Hw [Ha _]].
  destruct (DELETE_success q _ Hdel) as [i [_ [_ [Hw1 [_ Hsnd]]]]].
  set (w2 := snd (DELETE q (snd (POST (Parsed b) w)))) in *.
  assert (Hw2 : writable w2 = true) by (rewrite Hsnd; exact Hw1).
  exists (created b' w2). rewrite POST_run, Hw2. split; [reflexivity |].
  unfold created at 1. simpl. rewrite Hdoc, Ha. reflexivity.
Qed.

Lemma deleted_id_is_assigned_again_witness :
  let w := {| disk := None; readable := true; writable := true;
              write_failure := FailsBeforeOpen;
              trace := [] |} in
  let b := mkPartial None (Some "A. Smith") None None None None None None
                     None in
  let b' := mkPartial None (Some "B. Jones") None None None None None None
                      None in
  exists a' : Article,
    fst (POST (Parsed b') (snd (DELETE (Some "1") (snd (POST (Parsed b) w)))))
      = Ok {| status := 200; payload := SuccessArticle a' |} /\
    id a' = 1.
Proof.
  intros w b b'.
  apply (deleted_id_is_assigned_again w b b'
           (mkArticle 1 (Some "A. Smith") None None None None None None
                      None) (Some "1")).
  - reflexivity.
  - constructor.
  - reflexivity.
  - reflexivity.
Defined.

Lemma filter_Subseq {A} (f : A -> bool) (l : list A) :
  Subseq (filter f l) l.
Proof.
  induction l as [| x l IH]; simpl; [constructor |].
  destruct (f x); now constructor.
Qed.

Lemma filter_id_count (l : list Article) (i : Z) :
  (List.length (filter (fun article : Article => negb (Z.eqb (id article) i))
                       l)
   + count_occ Z.eq_dec (map id l) i = List.length l)%nat.
Proof.
  induction l as [| x l IH]; simpl; [reflexivity |].
  destruct (Z.eqb_spec (id x) i) as [He | Hne];
    destruct (Z.eq_dec (id x) i); try contradiction; simpl; lia.
Qed.

(** X8.  Delete goes by the id alone: when the write goes through, every record
    that carries the id is removed, however many there are, and every
    other record stays, in its order. *)
Theorem delete_removes_every_record_with_the_id :
  forall (w : World) (q : option string) (i : Z),
    parseInt (or_else q "0") = Some i -> i <> 0 ->
    In i (ids (document w)) ->
    writable w = true ->
    exists l' : list Article,
      fst (DELETE q w) = Ok {| status := 200; payload := Success |} /\
      disk (snd (DELETE q w)) = Some (Json {| articles := l' |}) /\
      Subseq l' (articles (document w)) /\
      (forall x, In x l' <-> In x (articles (document w)) /\ id x <> i) /\
      (List.length l' + count_occ Z.eq_dec (ids (document w)) i
       = List.length (articles (document w)))%nat.
Proof.
  intros w q i Hq Hi Hin Hw.
  exists (articles (after_delete i w)).
  pose proof (filter_present_id_shorter _ i Hin) as Hlen.
  assert (Hne : (List.length (articles (after_delete i w))
                 =? List.length (articles (document w)))%nat = false)
    by (apply Nat.eqb_neq; unfold after_delete; simpl; lia).
  rewrite (DELETE_run q i w Hq Hi), Hne, Hw. cbv zeta. simpl fst. simpl snd.
  split; [reflexivity |]. split; [rewrite document_eta; reflexivity |].
  unfold after_delete. simpl articles.
  split; [apply filter_Subseq |]. split; [| apply filter_id_count].
  intros x. rewrite filter_In, negb_true_iff, Z.eqb_neq. tauto.
Qed.

Lemma delete_removes_every_record_with_the_id_witness :
  let w := {| disk := Some (Json {| articles :=
                 [mkArticle 3 (Some "A. Smith") None None None None None None
                            None;
                  mkArticle 1 (Some "B. Jones") None None None None None None
                            None;
                  mkArticle 3 (Some "C. Brown") None None None None None None
                            None] |});
              readable := true; writable := true;
              write_failure := FailsBeforeOpen; trace := [] |} in
  exists l' : list Article,
    fst (DELETE (Some "3") w) = Ok {| status := 200; payload := Success |} /\
    disk (snd (DELETE (Some "3") w)) = Some (Json {| articles := l' |}) /\
    Subseq l' (articles (document w)) /\
    (forall x, In x l' <-> In x (articles (document w)) /\ id x <> 3) /\
    (List.length l' + count_occ Z.eq_dec (ids (document w)) 3%Z
     = List.length (articles (document w)))%nat.
Proof.
  intros w. apply (delete_removes_every_record_with_the_id w (Some "3") 3).
  - reflexivity.
  - lia.
  - vm_compute. tauto.
  - reflexivity.
Defined.

Lemma unreadable_document (w : World) :
  readable w = false -> document w = {| articles := [] |}.
Proof.
  intros Hr. rewrite document_cases, Hr. now destruct (disk w) as [[|] |].
Qed.

(** X9.  An Update adds no id, removes none and moves none.  Whatever the
    body, when the write goes through, or is not reached, or fails before
    the file is opened, the ids of the Document after the request are the
    ids before it.  The one other outcome is that of a write that failed
    after the file was opened: the file is then no Document any more and
    no id is left. *)
Theorem update_and_the_ids :
  forall (w : World) (body : Body Article),
    (writable w = true \/ write_failure w = FailsBeforeOpen ->
     ids (document (snd (PUT body w))) = ids (document w)) /\
    (ids (document (snd (PUT body w))) = ids (document w) \/
     writable w = false /\
     (exists remains : string, write_failure w = FailsAfterOpen remains) /\
     ids (document (snd (PUT body w))) = []).
Proof.
  intros w [| u].
  - rewrite PUT_malformed. simpl. autorewrite with store. auto.
  - rewrite PUT_run.
    destruct (Z.eqb_spec (position u w) (-1)) as [He | Hne].
    + simpl. autorewrite with store. auto.
    + cbv zeta. destruct (writable w) eqn:Hw; simpl snd.
      * assert (Hids : ids (document
                   (overwritten (Json (after_update u w))
                      (logged (FsWrite (Json (after_update u w)))
                              (logged FsRead w)))) = ids (document w)).
        { rewrite document_written.
          destruct (readable w) eqn:Hr; [now apply after_update_ids |].
          exfalso. apply Hne. unfold position.
          now rewrite (unreadable_document w Hr). }
        auto.
      * destruct (write_failure w) as [| remains] eqn:Hm.
        -- rewrite failed_write_before_open by exact Hm.
           autorewrite with store. auto.
        -- rewrite (failed_write_after_open _ remains) by exact Hm.
           rewrite document_truncated. split.
           ++ intros [H | H]; discriminate H.
           ++ right. split; [reflexivity |]. split; [eauto | reflexivity].
Qed.

Lemma update_and_the_ids_witness :
  let w := {| disk := Some (Json {| articles :=
                 [mkArticle 2 (Some "A. Smith") None None None None None None
                            None;
                  mkArticle 1 (Some "B. Jones") None None None None None None
                            None] |});
              readable := true; writable := false;
              write_failure := FailsBeforeOpen; trace := [] |} in
  ids (document (snd (PUT (Parsed (mkArticle 1 (Some "C. Brown") None None
                                             None None None None None)) w))) =
  [2; 1].
Proof.
  intros w.
  apply (update_and_the_ids w
           (Parsed (mkArticle 1 (Some "C. Brown") None None None None None
                              None None))).
  right. reflexivity.
Defined.

(** X10.  The id a Create assigns is at least 1, whatever ids the Document
    holds; when these are safe integers (at most 2^53 - 1), negative ones
    and duplicates included, it is above every id of the Document and so
    is the id of none of its records. *)
Theorem created_id_is_fresh :
  forall (w : World) (b : PartialArticle) (a : Article),
    fst (POST (Parsed b) w) =
      Ok {| status := 200; payload := SuccessArticle a |} ->
    1 <= id a /\
    (Forall (fun i => i <= MAX_SAFE_INTEGER) (ids (document w)) ->
     (forall i, In i (ids (document w)) -> i < id a) /\
     ~ In (id a) (ids (document w))).
Proof.
  intros w b a Hok. destruct (POST_success b w a Hok) as [_ [-> _]].
  pose proof (max_id_or_0_nonneg (articles (document w))) as Hnn.
  split.
  - unfold created, Number_add. simpl id. apply Number_value_positive. lia.
  - intros Hsafe. rewrite (created_id_safe b w Hsafe).
    assert (Hup : forall i, In i (ids (document w)) ->
                            i < max_id_or_0 (articles (document w)) + 1).
    { intros i Hin. apply in_map_iff in Hin. destruct Hin as [x [<- Hx]].
      pose proof (max_id_or_0_upper _ _ Hx). lia. }
    split; [exact Hup |].
    intros Hin. specialize (Hup _ Hin). lia.
Qed.

Lemma created_id_is_fresh_witness :
  let w := {| disk := Some (Json {| articles :=
                 [mkArticle (-7) None None None None None None None None;
                  mkArticle (-2) None None None None None None None None] |});
              readable := true; writable := true;
              write_failure := FailsBeforeOpen; trace := [] |} in
  1 <= 1 /\
  (Forall (fun i => i <= MAX_SAFE_INTEGER) (ids (document w)) ->
   (forall i, In i (ids (document w)) -> i < 1) /\
   ~ In 1 (ids (document w))).
Proof.
  intros w.
  apply (created_id_is_fresh w
           (mkPartial (Some (-2)) None None None None None None None None)
           (mkArticle 1 None None None None None None None None)).
  reflexivity.
Defined.

(** X11.  Ids of at least 1 are an invariant of the service: if every id of the
    Document is at least 1, the same holds after any request. *)
Theorem ids_stay_positive :
  forall (w : World) (r : Request),
    Forall (fun i => 1 <= i) (ids (document w)) ->
    Forall (fun i => 1 <= i) (ids (document (snd (dispatch r w)))).
Proof.
  intros w r H.
  assert (Hwritten : forall d e1 e2,
             Forall (fun i => 1 <= i) (ids d) ->
             Forall (fun i => 1 <= i)
                    (ids (document (overwritten (Json d)
                                      (logged e1 (logged e2 w)))))).
  { intros d e1 e2 Hd. rewrite document_written.
    destruct (readable w); [exact Hd | constructor]. }
  assert (Hfailed : forall w1,
             document w1 = document w ->
             Forall (fun i => 1 <= i) (ids (document (failed_write w1)))).
  { intros w1 Hd. destruct (document_failed_write w1) as [-> | ->];
      [now rewrite Hd | constructor]. }
  run_request r w;
    repeat match goal with
           | |- context [if ?c then _ else _] => destruct c eqn:?
           end;
    simpl snd; autorewrite with store; auto;
    first [apply Hfailed; now autorewrite with store | apply Hwritten].
  - unfold ids, after_create. simpl. rewrite map_app. apply Forall_app.
    split; [exact H |]. repeat constructor. simpl.
    pose proof (max_id_or_0_nonneg (articles (document w))).
    unfold Number_add. apply Number_value_positive. lia.
  - rewrite after_update_ids; [exact H |]. now apply Z.eqb_neq.
  - unfold ids, after_delete. simpl. rewrite Forall_forall in *.
    intros x Hx. apply in_map_iff in Hx. destruct Hx as [y [<- Hy]].
    apply filter_In in Hy. apply H. apply in_map. tauto.
Qed.

Lemma ids_stay_positive_witness :
  Forall (fun i => 1 <= i)
    (ids (document (snd (dispatch
      (Delete (Some "2"))
      {| disk := Some (Json {| articles :=
                   [mkArticle 2 None None None None None None None None;
                    mkArticle 1 None None None None None None None None] |});
         readable := true; writable := true;
              write_failure := FailsBeforeOpen; trace := [] |})))).
Proof.
  apply ids_stay_positive. vm_compute. repeat constructor; discriminate.
Defined.

(** ** The id from the page to the server *)

Lemma mod10_digit (n : Z) : 0 <= n mod 10 <= 9.
Proof. pose proof (Z.mod_pos_bound n 10). lia. Qed.

Lemma digit_value_digit_char (d : Z) :
  0 <= d <= 9 -> digit_value (digit_char d) = Some d.
Proof.
  intros H.
  assert (Hd : d = 0 \/ d = 1 \/ d = 2 \/ d = 3 \/ d = 4 \/ d = 5 \/ d = 6 \/
               d = 7 \/ d = 8 \/ d = 9) by lia.
  repeat destruct Hd as [-> | Hd]; try reflexivity. now subst.
Qed.

Lemma digit_char_not_special (d : Z) :
  0 <= d <= 9 ->
  is_white_space (digit_char d) = false /\
  digit_char d <> "-"%char /\ digit_char d <> "+"%char /\
  digit_char d <> "x"%char /\ digit_char d <> "X"%char.
Proof.
  intros H.
  assert (Hd : d = 0 \/ d = 1 \/ d = 2 \/ d = 3 \/ d = 4 \/ d = 5 \/ d = 6 \/
               d = 7 \/ d = 8 \/ d = 9) by lia.
  repeat destruct Hd as [-> | Hd]; try subst d;
    (split; [reflexivity | repeat split; discriminate]).
Qed.

Lemma read_one_digit (d : Z) (rest : string) (acc : option Z) :
  0 <= d <= 9 ->
  read_digits 10 (String (digit_char d) rest) acc =
  read_digits 10 rest (Some (match acc with
                             | Some a => a * 10 + d
                             | None => d
                             end)).
Proof.
  intros H. simpl. rewrite (digit_value_digit_char d H).
  destruct (Z.ltb_spec d 10); [reflexivity | lia].
Qed.

(** Reading back the digits that were printed. *)
Lemma read_digits_of (fuel : nat) :
  forall (n : Z) (rest : string),
    0 <= n < 10 * 2 ^ Z.of_nat fuel ->
    read_digits 10 (digits_of fuel n rest) None =
    read_digits 10 rest (Some n).
Proof.
  induction fuel as [| fuel IH]; intros n rest Hn.
  - simpl digits_of. change (2 ^ Z.of_nat 0) with 1 in Hn.
    rewrite read_one_digit by apply mod10_digit.
    now rewrite Z.mod_small by lia.
  - simpl digits_of.
    destruct (Z.ltb_spec n 10) as [Hlt | Hge].
    + rewrite read_one_digit by apply mod10_digit.
      now rewrite Z.mod_small by lia.
    + rewrite IH.
      * rewrite read_one_digit by apply mod10_digit.
        f_equal. f_equal. pose proof (Z.div_mod n 10). lia.
      * rewrite Nat2Z.inj_succ, Z.pow_succ_r in Hn by lia.
        split; [apply Z.div_pos; lia |].
        apply Z.div_lt_upper_bound; lia.
Qed.

(** The printed digits begin with a digit, and go on with a digit if they
    go on. *)
Lemma digits_of_shape (fuel : nat) :
  forall (n : Z) (rest : string),
    exists d, 0 <= d <= 9 /\
      (digits_of fuel n rest = String (digit_char d) rest \/
       exists d' s, 0 <= d' <= 9 /\
         digits_of fuel n rest = String (digit_char d) (String (digit_char d') s)).
Proof.
  induction fuel as [| fuel IH]; intros n rest.
  - exists (n mod 10). split; [apply mod10_digit | now left].
  - simpl digits_of. destruct (n <? 10).
    + exists (n mod 10). split; [apply mod10_digit | now left].
    + destruct (IH (n / 10) (String (digit_char (n mod 10)) rest))
        as [d [Hd [H | [d' [s [Hd' H]]]]]]; exists d; (split; [exact Hd |]);
        right.
      * exists (n mod 10), rest. split; [apply mod10_digit | exact H].
      * exists d', s. now split.
Qed.

Lemma log2_fuel (n : Z) :
  0 <= n -> 0 <= n < 10 * 2 ^ Z.of_nat (Z.to_nat (Z.log2 n)).
Proof.
  intros Hn. rewrite Z2Nat.id by apply Z.log2_nonneg.
  destruct (Z.eq_dec n 0) as [-> | Hne]; [simpl; lia |].
  pose proof (Z.log2_spec n ltac:(lia)) as [_ Hup].
  rewrite Z.pow_succ_r in Hup by apply Z.log2_nonneg. lia.
Qed.

(** [parseInt] reads the printed digits of a natural number back, and
    rounds. *)
Lemma parseInt_digits (n : Z) :
  0 <= n ->
  parseInt (decimal n) = Some (Number_value n) /\
  decimal n <> "" /\
  read_digits 10 (decimal n) None = Some n /\
  match decimal n with
  | String "0" (String "x" _) => False
  | String "0" (String "X" _) => False
  | _ => True
  end.
Proof.
  intros Hn. unfold decimal.
  pose proof (read_digits_of _ n "" (log2_fuel n Hn)) as Hread.
  simpl read_digits at 2 in Hread.
  destruct (digits_of_shape (Z.to_nat (Z.log2 n)) n "")
    as [d [Hd [H | [d' [s [Hd' H]]]]]]; rewrite H in *.
  - destruct (digit_char_not_special d Hd) as [Hws [Hm [Hp _]]].
    assert (Hparse : parseInt (String (digit_char d) "")
                     = Some (Number_value n)).
    { unfold parseInt. simpl trim_start. rewrite Hws.
      destruct (digit_char d) as [[] [] [] [] [] [] [] []] eqn:Hc;
        try (exfalso; apply Hm; reflexivity);
        try (exfalso; apply Hp; reflexivity);
        cbv zeta iota beta; rewrite Hread; f_equal; f_equal; lia. }
    split; [exact Hparse |]. split; [discriminate |]. split; [exact Hread |].
    now destruct (digit_char d) as [[] [] [] [] [] [] [] []].
  - destruct (digit_char_not_special d Hd) as [Hws [Hm [Hp _]]].
    destruct (digit_char_not_special d' Hd') as [_ [_ [_ [Hx HX]]]].
    assert (Hparse : parseInt (String (digit_char d) (String (digit_char d') s))
                     = Some (Number_value n)).
    { unfold parseInt. simpl trim_start. rewrite Hws.
      destruct (digit_char d) as [[] [] [] [] [] [] [] []] eqn:Hc;
        try (exfalso; apply Hm; reflexivity);
        try (exfalso; apply Hp; reflexivity);
        cbv zeta iota beta;
        try (rewrite Hread; f_equal; f_equal; lia);
        destruct (digit_char d') as [[] [] [] [] [] [] [] []] eqn:Hc';
        try (exfalso; apply Hx; reflexivity);
        try (exfalso; apply HX; reflexivity);
        cbv zeta iota beta; rewrite Hread; f_equal; f_equal; lia. }
    split; [exact Hparse |]. split; [discriminate |]. split; [exact Hread |].
    destruct (digit_char d) as [[] [] [] [] [] [] [] []]; try exact I;
      destruct (digit_char d') as [[] [] [] [] [] [] [] []]; try exact I;
      first [apply Hx; reflexivity | apply HX; reflexivity].
Qed.

(** The digits of a number hold no plus sign: the query of the URL gives
    them to the server as they are. *)
Lemma plus_to_space_digits (fuel : nat) :
  forall (n : Z) (rest : string),
    plus_to_space (digits_of fuel n rest) =
    digits_of fuel n (plus_to_space rest).
Proof.
  assert (Hone : forall n rest,
             plus_to_space (String (digit_char (n mod 10)) rest) =
             String (digit_char (n mod 10)) (plus_to_space rest)).
  { intros n rest. simpl.
    destruct (digit_char_not_special (n mod 10) (mod10_digit n))
      as [_ [_ [Hp _]]].
    apply Ascii.eqb_neq in Hp. now rewrite Hp. }
  induction fuel as [| fuel IH]; intros n rest; simpl digits_of.
  - apply Hone.
  - destruct (n <? 10); [apply Hone |]. now rewrite IH, Hone.
Qed.

Lemma plus_to_space_decimal (n : Z) :
  plus_to_space (decimal n) = decimal n.
Proof. unfold decimal. now rewrite plus_to_space_digits. Qed.

(** The text of a number up to 2^53 in size, through the query of the URL
    and [parseInt]. *)
Lemma parseInt_Number_toString (n : Z) :
  Z.abs n <= 9007199254740992 ->
  parseInt (or_else (Some (plus_to_space (Number_toString n))) "0") = Some n.
Proof.
  intros Hb. unfold Number_toString. cbv zeta.
  destruct (Z.leb_spec (Z.abs n) 9007199254740992) as [_ | Hbig]; [| lia].
  destruct (Z.ltb_spec n 0) as [Hneg | Hpos].
  - rewrite Z.abs_neq by lia.
    destruct (parseInt_digits (- n) ltac:(lia)) as [_ [_ [Hread Hx]]].
    change ("-" ++ decimal (- n))%string with (String "-" (decimal (- n))).
    change (plus_to_space (String "-" (decimal (- n))))
      with (String "-" (plus_to_space (decimal (- n)))).
    rewrite plus_to_space_decimal.
    simpl or_else. unfold parseInt. simpl trim_start.
    cbv zeta iota beta.
    assert (Hback : Some (Number_value (-1 * - n)) = Some n).
    { replace (-1 * - n) with n by lia.
      now rewrite Number_value_exact by exact Hb. }
    destruct (decimal (- n)) as [| c [| c' s]] eqn:Hd.
    + simpl in Hread. discriminate.
    + destruct c as [[] [] [] [] [] [] [] []];
        cbv zeta iota beta; rewrite Hread; exact Hback.
    + destruct c as [[] [] [] [] [] [] [] []];
        try (cbv zeta iota beta; rewrite Hread; exact Hback);
        destruct c' as [[] [] [] [] [] [] [] []];
        try contradiction;
        cbv zeta iota beta; rewrite Hread; exact Hback.
  - rewrite Z.abs_eq by lia.
    destruct (parseInt_digits n Hpos) as [Hparse [Hne _]].
    change ("" ++ decimal n)%string with (decimal n).
    rewrite plus_to_space_decimal.
    destruct (decimal n) eqn:Hd; [contradiction |].
    simpl or_else. rewrite Hparse. f_equal.
    apply Number_value_exact. rewrite Z.abs_eq; lia.
Qed.

(** X12.  The id the page puts in the URL of a Delete is the id the server
    reads, for a safe integer (magnitude at most 2^53 - 1), negative ones
    included: JavaScript prints it in plain digits, the query of the URL
    gives the digits as they are, and [parseInt], as the handler applies
    it, gives the number back.  It is not so for every number: 10^21 is
    printed [1e+21], the query reads the plus sign as a space, and the
    server reads the id 1. *)
Theorem id_survives_the_url :
  (forall n : Z,
      - MAX_SAFE_INTEGER <= n <= MAX_SAFE_INTEGER ->
      parseInt (or_else (Some (plus_to_space (Number_toString n))) "0") =
      Some n) /\
  Number_toString 1000000000000000000000 = "1e+21" /\
  parseInt (or_else (Some (plus_to_space
                             (Number_toString 1000000000000000000000))) "0") =
  Some 1.
Proof.
  split.
  - intros n Hb. apply parseInt_Number_toString.
    unfold MAX_SAFE_INTEGER in Hb. lia.
  - vm_compute. split; reflexivity.
Qed.

Lemma id_survives_the_url_witness :
  parseInt (or_else (Some (plus_to_space (Number_toString (-1024)))) "0") =
  Some (-1024).
Proof.
  apply (proj1 id_survives_the_url). unfold MAX_SAFE_INTEGER. lia.
Defined.

(** ** The page *)

Lemma fetch_answer (r : Request) (w : World) (response : Response)
    (w' : World) :
  dispatch r w = (Ok response, w') -> fetch r w = (response, w').
Proof. unfold fetch. now intros ->. Qed.

Lemma pair_eta {A B} (p : A * B) : p = (fst p, snd p).
Proof. now destruct p. Qed.

(** X13.  Deleting from the page: for the selected article, with a non-zero
    id that is a safe integer (magnitude at most 2^53 - 1) and that one
    record of a Document with pairwise distinct ids carries, and a write
    that goes through, [handleDeleteArticle] leaves the file without that
    record, the others in their order, and returns to the list (no article
    selected); the form is not touched. *)
Theorem page_delete_removes_the_record :
  forall (article : Article) (h : Home) (w : World),
    - MAX_SAFE_INTEGER <= id article <= MAX_SAFE_INTEGER ->
    id article <> 0 ->
    NoDup (ids (document w)) ->
    In (id article) (ids (document w)) ->
    writable w = true ->
    exists (l1 : list Article) (x : Article) (l2 : list Article),
      articles (document w) = l1 ++ x :: l2 /\
      id x = id article /\
      disk (snd (handleDeleteArticle article h w)) =
        Some (Json {| articles := l1 ++ l2 |}) /\
      fst (handleDeleteArticle article h w) =
        {| selectedArticle := None;
           isFormOpen := isFormOpen h;
           isEditing := isEditing h;
           currentArticle := currentArticle h |}.
Proof.
  intros article h w Hb Hi Hnd Hin Hw.
  assert (Hq : parseInt (or_else (Some (plus_to_space
                 (Number_toString (id article)))) "0") = Some (id article))
    by (apply parseInt_Number_toString; unfold MAX_SAFE_INTEGER in Hb; lia).
  destruct (filter_unique_id _ _ Hnd Hin) as [l1 [x [l2 [Hl [Hx Hf]]]]].
  exists l1, x, l2. split; [exact Hl | split; [exact Hx |]].
  pose proof (filter_present_id_shorter _ _ Hin) as Hlen.
  assert (Hne : (List.length (articles (after_delete (id article) w))
                 =? List.length (articles (document w)))%nat = false)
    by (apply Nat.eqb_neq; unfold after_delete; simpl; lia).
  unfold handleDeleteArticle.
  erewrite fetch_answer
    by (simpl dispatch; rewrite (DELETE_run _ _ w Hq Hi), Hne, Hw;
        reflexivity).
  change (negb (response_ok {| status := 200; payload := Success |}))
    with false.
  cbn [fst snd disk overwritten]. unfold after_delete. rewrite Hf.
  split; reflexivity.
Qed.

Lemma page_delete_removes_the_record_witness :
  let w := {| disk := Some (Json {| articles :=
                 [mkArticle 1 (Some "A. Smith") None None None None None None
                            None;
                  mkArticle 12 (Some "B. Jones") None None None None None None
                            None] |});
              readable := true; writable := true;
              write_failure := FailsBeforeOpen; trace := [] |} in
  let article := mkArticle 12 (Some "B. Jones") None None None None None None
                           None in
  let h := {| selectedArticle := Some article; isFormOpen := false;
              isEditing := false; currentArticle := None |} in
  exists (l1 : list Article) (x : Article) (l2 : list Article),
    articles (document w) = l1 ++ x :: l2 /\
    id x = id article /\
    disk (snd (handleDeleteArticle article h w)) =
      Some (Json {| articles := l1 ++ l2 |}) /\
    fst (handleDeleteArticle article h w) =
      {| selectedArticle := None;
         isFormOpen := isFormOpen h;
         isEditing := isEditing h;
         currentArticle := currentArticle h |}.
Proof.
  intros w article h. apply page_delete_removes_the_record.
  - change (- MAX_SAFE_INTEGER <= 12 <= MAX_SAFE_INTEGER).
    unfold MAX_SAFE_INTEGER. lia.
  - vm_compute. discriminate.
  - vm_compute. repeat constructor; simpl; intuition discriminate.
  - vm_compute. tauto.
  - reflexivity.
Defined.

(** X14.  When the server refuses the Delete the page stays as it is, for an
    article whose id is a safe integer (magnitude at most 2^53 - 1): this
    is so for the id 0 (the server never looks for it and does not touch
    the file: a record with id 0 cannot be deleted from the page), for an
    id no record carries, and when the write fails.  The file has the
    content it had, except when the write failed after the file was
    opened: the file then holds what the write left of the text. *)
Theorem page_delete_refused :
  forall (article : Article) (h : Home) (w : World),
    - MAX_SAFE_INTEGER <= id article <= MAX_SAFE_INTEGER ->
    id article = 0 \/ ~ In (id article) (ids (document w)) \/
    writable w = false ->
    fst (handleDeleteArticle article h w) = h /\
    (id article = 0 -> snd (handleDeleteArticle article h w) = w) /\
    (id article = 0 \/ ~ In (id article) (ids (document w)) \/
     write_failure w = FailsBeforeOpen ->
     disk (snd (handleDeleteArticle article h w)) = disk w) /\
    (forall remains : string,
        id article <> 0 -> In (id article) (ids (document w)) ->
        write_failure w = FailsAfterOpen remains ->
        disk (snd (handleDeleteArticle article h w)) =
        Some (NotJson remains)).
Proof.
  intros article h w Hb Hcase.
  assert (Hq : parseInt (or_else (Some (plus_to_space
                 (Number_toString (id article)))) "0") = Some (id article))
    by (apply parseInt_Number_toString; unfold MAX_SAFE_INTEGER in Hb; lia).
  unfold handleDeleteArticle.
  destruct (Z.eq_dec (id article) 0) as [Hz | Hnz].
  - erewrite fetch_answer
      by (simpl dispatch; apply DELETE_rejected; rewrite Hq, Hz;
          reflexivity).
    change (negb (response_ok {| status := 400;
                                 payload := Failure "ID manquant" |}))
      with true.
    cbn [fst snd].
    split; [reflexivity |]. split; [reflexivity |].
    split; [reflexivity |]. intros; contradiction.
  - rewrite (pair_eta (fetch _ w)). unfold fetch. simpl dispatch.
    rewrite (DELETE_run _ _ w Hq Hnz).
    destruct (in_dec Z.eq_dec (id article) (ids (document w)))
      as [Hin | Hnotin].
    + assert (Hw : writable w = false)
        by (destruct Hcase as [? | [? | ?]];
            [contradiction | contradiction | assumption]).
      pose proof (filter_present_id_shorter _ _ Hin) as Hlen.
      assert (Hne : (List.length (articles (after_delete (id article) w))
                     =? List.length (articles (document w)))%nat = false)
        by (apply Nat.eqb_neq; unfold after_delete; simpl; lia).
      rewrite Hne, Hw. cbn [fst snd].
      change (negb (response_ok
                      {| status := 500;
                         payload :=
                           Failure "Échec de l'écriture du fichier" |}))
        with true.
      cbn [fst snd]. unfold failed_write.
      cbn [write_failure logged disk overwritten].
      split; [reflexivity |]. split; [intros; contradiction |]. split.
      * intros [Hz | [Hn | Hm]]; [contradiction | contradiction |].
        now rewrite Hm.
      * intros remains _ _ Hm. now rewrite Hm.
    + unfold after_delete. cbn [articles].
      rewrite (filter_absent_id _ _ Hnotin), Nat.eqb_refl.
      cbn [fst snd].
      change (negb (response_ok {| status := 404;
                                   payload := Failure "Article non trouvé" |}))
        with true.
      cbn [fst snd disk logged].
      split; [reflexivity |]. split; [intros; contradiction |].
      split; [reflexivity |]. intros; contradiction.
Qed.

Lemma page_delete_refused_witness :
  let w := {| disk := Some (Json {| articles :=
                 [mkArticle 0 (Some "A. Smith") None None None None None None
                            None] |});
              readable := true; writable := true;
              write_failure := FailsBeforeOpen; trace := [] |} in
  let article := mkArticle 0 (Some "A. Smith") None None None None None None
                           None in
  let h := {| selectedArticle := Some article; isFormOpen := false;
              isEditing := false; currentArticle := None |} in
  fst (handleDeleteArticle article h w) = h /\
  snd (handleDeleteArticle article h w) = w /\
  disk (snd (handleDeleteArticle article h w)) = disk w.
Proof.
  intros w article h.
  destruct (page_delete_refused article h w) as [Hh [Hw [Hd _]]].
  - change (- MAX_SAFE_INTEGER <= 0 <= MAX_SAFE_INTEGER).
    unfold MAX_SAFE_INTEGER. lia.
  - left. reflexivity.
  - split; [exact Hh |]. split; [apply Hw; reflexivity |].
    apply Hd. left. reflexivity.
Defined.

(** ** The form *)

Lemma has_error_key (name : string) (e : Errors) :
  has_error name e = true -> In name (map fst e).
Proof.
  unfold has_error. induction e as [| [k v] e IH]; simpl; [discriminate |].
  destruct (String.eqb_spec k name) as [-> | Hne]; [now left |].
  intros H. right. now apply IH.
Qed.

(** X15.  [validateForm] accepts a form exactly when the authors and the four
    lists are not empty, and the errors it records are those of the fields
    that are empty: each empty field has its message, and no other name
    has one. *)
Theorem validateForm_accepts_filled_forms :
  forall f : FormData,
    (fst (validateForm f) = true <-> required_filled f) /\
    (has_error "authors" (snd (validateForm f)) = true <->
     f_authors f = "") /\
    (has_error "keywords" (snd (validateForm f)) = true <->
     f_keywords f = []) /\
    (has_error "models" (snd (validateForm f)) = true <->
     f_models f = []) /\
    (has_error "techniques" (snd (validateForm f)) = true <->
     f_techniques f = []) /\
    (has_error "results" (snd (validateForm f)) = true <->
     f_results f = []) /\
    (forall name, has_error name (snd (validateForm f)) = true ->
                  In name ["authors"; "keywords"; "models"; "techniques";
                           "results"]).
Proof.
  intros [i a d t k m te r n]. unfold required_filled. simpl.
  repeat split;
    try (intros name Hname; apply has_error_key in Hname; revert Hname);
    destruct a as [| c a]; destruct k as [| k0 k]; destruct m as [| m0 m];
    destruct te as [| t0 te]; destruct r as [| r0 r];
    cbn; try tauto; try discriminate; try congruence;
    intuition (try discriminate; try congruence).
Qed.

Lemma validateForm_filled (f : FormData) :
  required_filled f -> validateForm f = (true, []).
Proof.
  destruct f as [i a d t k m te r n]. unfold required_filled. simpl.
  intros [Ha [Hk [Hm [Hte Hr]]]].
  destruct a; destruct k; destruct m; destruct te; destruct r;
    try contradiction; reflexivity.
Qed.

Lemma validateForm_unfilled (f : FormData) :
  ~ required_filled f ->
  fst (validateForm f) = false /\ snd (validateForm f) <> [].
Proof.
  destruct f as [i a d t k m te r n]. unfold required_filled. simpl.
  intros H.
  destruct a; destruct k; destruct m; destruct te; destruct r;
    try (split; [reflexivity | discriminate]);
    exfalso; apply H; repeat split; discriminate.
Qed.

(** X16.  A form with an empty required field is not sent: [handleSubmit] makes
    no request (the world is the same, no call was made), leaves the page
    as it is and the form open with its data, and records the errors of
    [validateForm], of which there is at least one. *)
Theorem incomplete_form_is_not_sent :
  forall (form : Form) (h : Home) (w : World),
    ~ required_filled (formData form) ->
    handleSubmit form h w =
      ({| formData := formData form;
          errors := snd (validateForm (formData form));
          isSubmitting := isSubmitting form;
          submitError := "" |}, h, w) /\
    snd (validateForm (formData form)) <> [].
Proof.
  intros form h w H.
  destruct (validateForm_unfilled _ H) as [Hv He]. split; [| exact He].
  unfold handleSubmit.
  rewrite (surjective_pairing (validateForm (formData form))), Hv.
  reflexivity.
Qed.

Lemma incomplete_form_is_not_sent_witness :
  let form := {| formData :=
                   mkFormData None "A. Smith" None None ["x"] [] ["t"] ["r"]
                              None;
                 errors := []; isSubmitting := false; submitError := "" |} in
  let h := {| selectedArticle := None; isFormOpen := true;
              isEditing := false; currentArticle := None |} in
  let w := {| disk := None; readable := true; writable := true;
              write_failure := FailsBeforeOpen;
              trace := [] |} in
  handleSubmit form h w =
    ({| formData := formData form;
        errors := snd (validateForm (formData form));
        isSubmitting := isSubmitting form;
        submitError := "" |}, h, w) /\
  snd (validateForm (formData form)) <> [].
Proof.
  intros form h w. apply incomplete_form_is_not_sent.
  unfold required_filled. simpl. intuition congruence.
Defined.

Lemma fetch_create (p : PartialArticle) (w : World) :
  fetch (Create (Parsed p)) w =
  let w1 := logged (FsWrite (Json (after_create p w))) (logged FsRead w) in
  if writable w
  then ({| status := 200; payload := SuccessArticle (created p w) |},
        overwritten (Json (after_create p w)) w1)
  else ({| status := 500;
           payload := Failure "Échec de l'écriture du fichier" |},
        failed_write w1).
Proof.
  unfold fetch. simpl dispatch. rewrite POST_run. cbv zeta.
  now destruct (writable w).
Qed.

Lemma fetch_update (u : Article) (w : World) :
  fetch (Update (Parsed u)) w =
  if position u w =? -1
  then ({| status := 404; payload := Failure "Article non trouvé" |},
        logged FsRead w)
  else
    let w1 := logged (FsWrite (Json (after_update u w))) (logged FsRead w) in
    if writable w
    then ({| status := 200; payload := SuccessArticle u |},
          overwritten (Json (after_update u w)) w1)
    else ({| status := 500;
             payload := Failure "Échec de l'écriture du fichier" |},
          failed_write w1).
Proof.
  unfold fetch. simpl dispatch. rewrite PUT_run. cbv zeta.
  destruct (position u w =? -1); [reflexivity |].
  now destruct (writable w).
Qed.

Lemma articleData_id (f : FormData) (i : Z) :
  assign_id (articleData_of f) i = record_of f i.
Proof. reflexivity. Qed.

Lemma handleSaveArticle_create (p : PartialArticle) (h : Home) (w : World) :
  p_id p = None ->
  handleSaveArticle p h w =
  let w1 := logged (FsWrite (Json (after_create p w))) (logged FsRead w) in
  if writable w
  then (Returned,
        {| selectedArticle := None; isFormOpen := false;
           isEditing := isEditing h; currentArticle := currentArticle h |},
        overwritten (Json (after_create p w)) w1)
  else (Raised "Erreur lors de l'enregistrement de l'article", h,
        failed_write w1).
Proof.
  intros Hid. unfold handleSaveArticle. rewrite Hid, fetch_create.
  cbv zeta. now destruct (writable w).
Qed.

Lemma handleSaveArticle_update (p : PartialArticle) (i : Z) (h : Home)
    (w : World) :
  p_id p = Some i ->
  handleSaveArticle p h w =
  let u := assign_id p i in
  if position u w =? -1
  then (Raised "Erreur lors de l'enregistrement de l'article", h,
        logged FsRead w)
  else
    let w1 := logged (FsWrite (Json (after_update u w))) (logged FsRead w) in
    if writable w
    then (Returned,
          {| selectedArticle := None; isFormOpen := false;
             isEditing := isEditing h; currentArticle := currentArticle h |},
          overwritten (Json (after_update u w)) w1)
    else (Raised "Erreur lors de l'enregistrement de l'article", h,
          failed_write w1).
Proof.
  intros Hid. unfold handleSaveArticle. rewrite Hid, fetch_update.
  cbv zeta. destruct (position (assign_id p i) w =? -1); [reflexivity |].
  now destruct (writable w).
Qed.

Lemma handleSubmit_filled (form : Form) (h : Home) (w : World) :
  required_filled (formData form) ->
  handleSubmit form h w =
  match handleSaveArticle (articleData_of (formData form)) h w with
  | (Returned, h', w') =>
      ({| formData := formData form; errors := [];
          isSubmitting := false; submitError := "" |},
       handleCloseForm h', w')
  | (Raised _, h', w') =>
      ({| formData := formData form; errors := [];
          isSubmitting := false;
          submitError :=
            "Une erreur est survenue lors de l'enregistrement. Veuillez réessayer." |},
       h', w')
  end.
Proof.
  intros Hfilled. unfold handleSubmit.
  now rewrite (validateForm_filled _ Hfilled).
Qed.

(** X17.  Adding from the form: a form with its required fields filled and no
    id, submitted when the write goes through, appends to the Document one
    record with the id the service computes ([maxId + 1] as a number, the
    integer after the largest id when the ids are safe integers) and
    exactly the fields of the form, closes the form without error and
    returns the page to the list. *)
Theorem complete_new_form_is_stored :
  forall (form : Form) (h : Home) (w : World),
    required_filled (formData form) ->
    f_id (formData form) = None ->
    writable w = true ->
    fst (fst (handleSubmit form h w)) =
      {| formData := formData form; errors := [];
         isSubmitting := false; submitError := "" |} /\
    snd (fst (handleSubmit form h w)) =
      {| selectedArticle := None; isFormOpen := false;
         isEditing := isEditing h; currentArticle := currentArticle h |} /\
    disk (snd (handleSubmit form h w)) =
      Some (Json {| articles :=
        articles (document w) ++
        [record_of (formData form)
                   (Number_add (fold_right Z.max 0 (ids (document w))) 1)] |})
    /\
    (Forall (fun i => i <= MAX_SAFE_INTEGER) (ids (document w)) ->
     Number_add (fold_right Z.max 0 (ids (document w))) 1 =
     fold_right Z.max 0 (ids (document w)) + 1).
Proof.
  intros form h w Hfilled Hid Hw.
  rewrite (handleSubmit_filled form h w Hfilled).
  rewrite (handleSaveArticle_create (articleData_of (formData form)) h w Hid),
    Hw.
  split; [reflexivity |]. split; [reflexivity |]. split; [reflexivity |].
  intros Hsafe. apply Number_add_exact. now apply max_id_or_0_safe.
Qed.

Lemma complete_new_form_is_stored_witness :
  let form := {| formData :=
                   mkFormData None "A. Smith" None (Some "On lists") ["x"]
                              ["m"] ["t"] ["r"] None;
                 errors := []; isSubmitting := false; submitError := "" |} in
  let h := {| selectedArticle := None; isFormOpen := true;
              isEditing := false; currentArticle := None |} in
  let w := {| disk := None; readable := true; writable := true;
              write_failure := FailsBeforeOpen;
              trace := [] |} in
  fst (fst (handleSubmit form h w)) =
    {| formData := formData form; errors := [];
       isSubmitting := false; submitError := "" |} /\
  snd (fst (handleSubmit form h w)) =
    {| selectedArticle := None; isFormOpen := false;
       isEditing := isEditing h; currentArticle := currentArticle h |} /\
  disk (snd (handleSubmit form h w)) =
    Some (Json {| articles :=
      articles (document w) ++
      [record_of (formData form)
                 (Number_add (fold_right Z.max 0 (ids (document w))) 1)] |})
  /\
  (Forall (fun i => i <= MAX_SAFE_INTEGER) (ids (document w)) ->
   Number_add (fold_right Z.max 0 (ids (document w))) 1 =
   fold_right Z.max 0 (ids (document w)) + 1).
Proof.
  intros form h w. apply complete_new_form_is_stored.
  - unfold required_filled. cbn. repeat split; discriminate.
  - reflexivity.
  - reflexivity.
Defined.

(** X18.  Editing from the form: a filled form that carries the id of the record
    at index [k] of a Document with pairwise distinct ids, submitted when
    the write goes through, puts the record of the form at index [k] in
    place of the old one (nothing of the old record is kept), leaves every
    other record where it is, closes the form and returns the page to the
    list. *)
Theorem complete_edit_form_replaces_the_record :
  forall (form : Form) (h : Home) (w : World) (i : Z) (k : nat)
         (old : Article),
    required_filled (formData form) ->
    f_id (formData form) = Some i ->
    NoDup (ids (document w)) ->
    nth_error (articles (document w)) k = Some old ->
    id old = i ->
    writable w = true ->
    exists l' : list Article,
      disk (snd (handleSubmit form h w)) = Some (Json {| articles := l' |}) /\
      nth_error l' k = Some (record_of (formData form) i) /\
      (forall j, j <> k ->
                 nth_error l' j = nth_error (articles (document w)) j) /\
      List.length l' = List.length (articles (document w)) /\
      fst (fst (handleSubmit form h w)) =
        {| formData := formData form; errors := [];
           isSubmitting := false; submitError := "" |} /\
      snd (fst (handleSubmit form h w)) =
        {| selectedArticle := None; isFormOpen := false;
           isEditing := isEditing h; currentArticle := currentArticle h |}.
Proof.
  intros form h w i k old Hfilled Hid Hnd Hk Hold Hw.
  set (u := record_of (formData form) i).
  pose proof (position_unique u old w k Hnd Hk Hold) as Hp.
  assert (Hlt : (k < List.length (articles (document w)))%nat)
    by (apply nth_error_Some; congruence).
  exists (assign_at (articles (document w)) k u).
  rewrite (handleSubmit_filled form h w Hfilled).
  rewrite (handleSaveArticle_update (articleData_of (formData form)) i h w
             Hid), articleData_id.
  cbv zeta. fold u. rewrite Hp.
  destruct (Z.eqb_spec (Z.of_nat k) (-1)); [lia |].
  rewrite Hw. cbn [fst snd disk overwritten].
  unfold after_update, assign_index. rewrite Hp.
  destruct (Z.ltb_spec (Z.of_nat k) 0); [lia |].
  rewrite Nat2Z.id.
  split; [reflexivity |]. split; [now apply assign_at_same |].
  split; [intros j Hj; now apply assign_at_other |].
  split; [apply assign_at_length |]. split; reflexivity.
Qed.

Lemma complete_edit_form_replaces_the_record_witness :
  let form := {| formData :=
                   mkFormData (Some 2) "B. Jones" None (Some "New") ["x"]
                              ["m"] ["t"] ["r"] None;
                 errors := []; isSubmitting := false; submitError := "" |} in
  let h := {| selectedArticle := None; isFormOpen := true;
              isEditing := true; currentArticle := None |} in
  let w := {| disk := Some (Json {| articles :=
                 [mkArticle 1 (Some "A. Smith") None None None None None None
                            None;
                  mkArticle 2 (Some "B. Jones") None (Some "Old") None None
                            None None (Some "a note")] |});
              readable := true; writable := true;
              write_failure := FailsBeforeOpen; trace := [] |} in
  exists l' : list Article,
    disk (snd (handleSubmit form h w)) = Some (Json {| articles := l' |}) /\
    nth_error l' 1 = Some (record_of (formData form) 2) /\
    (forall j, j <> 1%nat ->
               nth_error l' j = nth_error (articles (document w)) j) /\
    List.length l' = List.length (articles (document w)) /\
    fst (fst (handleSubmit form h w)) =
      {| formData := formData form; errors := [];
         isSubmitting := false; submitError := "" |} /\
    snd (fst (handleSubmit form h w)) =
      {| selectedArticle := None; isFormOpen := false;
         isEditing := isEditing h; currentArticle := currentArticle h |}.
Proof.
  intros form h w.
  apply (complete_edit_form_replaces_the_record form h w 2 1
           (mkArticle 2 (Some "B. Jones") None (Some "Old") None None None
                      None (Some "a note"))).
  - unfold required_filled. cbn. repeat split; discriminate.
  - reflexivity.
  - vm_compute. repeat constructor; simpl; intuition discriminate.
  - reflexivity.
  - reflexivity.
  - reflexivity.
Defined.

(** X19.  When the server refuses what the form sends (the write fails, or the
    form carries an id that no record has), the form stays open with its
    data and shows the submit error, it is no longer submitting, and the
    page is as before.  The file has the content it had when the id was
    not found and when the write failed before the file was opened; when
    the write was reached and failed after the file was opened, the file
    holds what the write left of the text. *)
Theorem refused_form_stays_open :
  forall (form : Form) (h : Home) (w : World),
    required_filled (formData form) ->
    writable w = false \/
    (exists i, f_id (formData form) = Some i /\
               ~ In i (ids (document w))) ->
    fst (fst (handleSubmit form h w)) =
      {| formData := formData form; errors := [];
         isSubmitting := false;
         submitError :=
           "Une erreur est survenue lors de l'enregistrement. Veuillez réessayer." |} /\
    snd (fst (handleSubmit form h w)) = h /\
    (write_failure w = FailsBeforeOpen \/
     (exists i, f_id (formData form) = Some i /\
                ~ In i (ids (document w))) ->
     disk (snd (handleSubmit form h w)) = disk w) /\
    (forall remains : string,
        write_failure w = FailsAfterOpen remains ->
        (forall i, f_id (formData form) = Some i ->
                   In i (ids (document w))) ->
        disk (snd (handleSubmit form h w)) = Some (NotJson remains)).
Proof.
  intros form h w Hfilled Hcase.
  rewrite (handleSubmit_filled form h w Hfilled).
  assert (Hfid : p_id (articleData_of (formData form)) =
                 f_id (formData form)) by reflexivity.
  destruct (f_id (formData form)) as [i |] eqn:Hid.
  - rewrite (handleSaveArticle_update _ i h w Hfid), articleData_id.
    cbv zeta.
    destruct (Z.eqb_spec (position (record_of (formData form) i) w) (-1))
      as [He | Hne].
    + cbn [fst snd disk logged].
      split; [reflexivity |]. split; [reflexivity |].
      split; [reflexivity |].
      intros remains _ Hall. exfalso.
      apply (position_present (record_of (formData form) i) w);
        [exact (Hall i eq_refl) | exact He].
    + assert (Hin : In i (ids (document w))).
      { destruct (in_dec Z.eq_dec i (ids (document w))) as [Hin | Hnotin];
          [exact Hin | exfalso].
        apply Hne. now apply position_absent. }
      assert (Hw : writable w = false).
      { destruct Hcase as [Hw | [i' [Hi' Hnotin]]]; [exact Hw |].
        injection Hi' as <-. contradiction. }
      rewrite Hw. cbn [fst snd]. unfold failed_write.
      cbn [write_failure logged disk overwritten].
      split; [reflexivity |]. split; [reflexivity |]. split.
      * intros [Hm | [i' [Hi' Hnotin]]]; [now rewrite Hm |].
        injection Hi' as <-. contradiction.
      * intros remains Hm _. now rewrite Hm.
  - assert (Hw : writable w = false).
    { destruct Hcase as [Hw | [i' [Hi' _]]]; [exact Hw | discriminate]. }
    rewrite (handleSaveArticle_create _ h w Hfid), Hw.
    cbn [fst snd]. unfold failed_write.
    cbn [write_failure logged disk overwritten].
    split; [reflexivity |]. split; [reflexivity |]. split.
    + intros [Hm | [i' [Hi' _]]]; [now rewrite Hm | discriminate].
    + intros remains Hm _. now rewrite Hm.
Qed.

Lemma refused_form_stays_open_witness :
  let form := {| formData :=
                   mkFormData None "A. Smith" None None ["x"] ["m"] ["t"]
                              ["r"] None;
                 errors := []; isSubmitting := false; submitError := "" |} in
  let h := {| selectedArticle := None; isFormOpen := true;
              isEditing := false; currentArticle := None |} in
  let w := {| disk := Some (Json {| articles := [] |});
              readable := true; writable := false;
              write_failure := FailsAfterOpen "";
              trace := [] |} in
  fst (fst (handleSubmit form h w)) =
    {| formData := formData form; errors := [];
       isSubmitting := false;
       submitError :=
         "Une erreur est survenue lors de l'enregistrement. Veuillez réessayer." |} /\
  snd (fst (handleSubmit form h w)) = h /\
  disk (snd (handleSubmit form h w)) = Some (NotJson "").
Proof.
  intros form h w.
  destruct (refused_form_stays_open form h w) as [Hf [Hh [_ Hd]]].
  - unfold required_filled. cbn. repeat split; discriminate.
  - left. reflexivity.
  - split; [exact Hf |]. split; [exact Hh |].
    apply (Hd ""); [reflexivity | discriminate].
Defined.

(** ** The array inputs *)

Lemma trim_start_clean (s : string) :
  starts_with_white_space (trim_start s) = false.
Proof.
  induction s as [| c s IH]; simpl; [reflexivity |].
  destruct (is_white_space c) eqn:Hc; [exact IH | simpl; exact Hc].
Qed.

Lemma trim_end_clean (s : string) :
  ends_with_white_space (trim_end s) = false.
Proof.
  induction s as [| c s IH]; simpl; [reflexivity |].
  destruct (trim_end s) as [| c' t] eqn:Ht.
  - destruct (is_white_space c) eqn:Hc; simpl; [reflexivity | exact Hc].
  - simpl in *. exact IH.
Qed.

Lemma trim_end_head (s : string) :
  starts_with_white_space s = false ->
  starts_with_white_space (trim_end s) = false.
Proof.
  destruct s as [| c s]; simpl; [reflexivity |].
  intros Hc. destruct (trim_end s); [rewrite Hc |]; simpl; auto.
Qed.

Lemma trim_clean (s : string) : truthy (trim s) = true -> clean_token (trim s).
Proof.
  intros Ht. unfold clean_token, trim in *. split; [| split].
  - intros He. rewrite He in Ht. discriminate.
  - apply trim_end_head, trim_start_clean.
  - apply trim_end_clean.
Qed.

(** X20.  The tokens of an array input stay clean: if no token of the list is
    empty or has white space at an end, the same holds for the list the
    Enter key produces (the typed text enters trimmed, and not at all when
    only white space was typed) and for the list a chip deletion
    produces; after an addition the input is empty again. *)
Theorem array_input_tokens_stay_clean :
  forall (value : list string),
    Forall clean_token value ->
    (forall (key inputValue : string) (value' : list string),
        fst (handleInputKeyDown key value inputValue) = Some value' ->
        Forall clean_token value' /\
        value' = value ++ [trim inputValue] /\
        snd (handleInputKeyDown key value inputValue) = "") /\
    (forall itemToDelete : string,
        Forall clean_token (handleDelete itemToDelete value)).
Proof.
  intros value Hclean. split.
  - intros key inputValue value'. unfold handleInputKeyDown.
    destruct (key =? "Enter")%string; simpl; [| discriminate].
    destruct (truthy (trim inputValue)) eqn:Ht; simpl; [| discriminate].
    intros [= <-]. split; [| split; reflexivity].
    apply Forall_app. split; [exact Hclean |].
    constructor; [now apply trim_clean | constructor].
  - intros item. unfold handleDelete. rewrite Forall_forall in *.
    intros x Hx. apply filter_In in Hx. now apply Hclean.
Qed.

Lemma array_input_tokens_stay_clean_witness :
  Forall clean_token ["lattice"; "Monte Carlo"] /\
  ["lattice"; "Monte Carlo"] = ["lattice"] ++ [trim "  Monte Carlo "] /\
  snd (handleInputKeyDown "Enter" ["lattice"] "  Monte Carlo ") = "".
Proof.
  apply (proj1 (array_input_tokens_stay_clean ["lattice"]
                  ltac:(repeat constructor; discriminate))
           "Enter" "  Monte Carlo " ["lattice"; "Monte Carlo"]).
  reflexivity.
Defined.

Lemma handleDelete_absent (item : string) (value : list string) :
  ~ In item value -> handleDelete item value = value.
Proof.
  unfold handleDelete. induction value as [| x value IH]; simpl;
    intros H; [reflexivity |].
  destruct (String.eqb_spec x item) as [-> | Hne]; simpl.
  - exfalso. apply H. now left.
  - f_equal. apply IH. intros Hin. apply H. now right.
Qed.

(** X21.  A chip is deleted by its text: every chip with that text goes, the
    others stay in their order.  So the deletion of a token just added
    gives the old list back when the token was new, and otherwise also
    removes the older chips with the same text, which the input let in. *)
Theorem chip_deletion_goes_by_text :
  forall (item : string) (value : list string),
    ~ In item (handleDelete item value) /\
    (forall x, x <> item -> (In x (handleDelete item value) <-> In x value)) /\
    Subseq (handleDelete item value) value /\
    handleDelete item (value ++ [item]) = handleDelete item value /\
    (~ In item value -> handleDelete item (value ++ [item]) = value) /\
    (In item value ->
     (List.length (handleDelete item (value ++ [item]))
      < List.length value)%nat).
Proof.
  intros item value.
  assert (Hadd : handleDelete item (value ++ [item])
                 = handleDelete item value).
  { unfold handleDelete. rewrite filter_app. simpl.
    rewrite String.eqb_refl. simpl. apply app_nil_r. }
  split; [| split; [| split; [| split; [| split]]]].
  - unfold handleDelete. intros Hin. apply filter_In in Hin.
    destruct Hin as [_ Hne]. now rewrite String.eqb_refl in Hne.
  - intros x Hx. unfold handleDelete. rewrite filter_In.
    destruct (String.eqb_spec x item); [contradiction | simpl; tauto].
  - apply filter_Subseq.
  - exact Hadd.
  - intros Hnotin. rewrite Hadd. now apply handleDelete_absent.
  - intros Hin. rewrite Hadd. clear Hadd. unfold handleDelete.
    induction value as [| x value IH]; simpl; [contradiction |].
    pose proof (filter_length_le
                  (fun item0 => negb (item0 =? item)%string) value).
    destruct (String.eqb_spec x item) as [-> | Hne]; simpl; [lia |].
    destruct Hin as [Hx | Hin]; [contradiction |].
    specialize (IH Hin). lia.
Qed.

(** ** Editing a field of the form *)

Lemma get_key_delete_other (name k : string) (e : Errors) :
  name <> k -> get_key name (delete_key k e) = get_key name e.
Proof.
  intros Hne. unfold delete_key.
  induction e as [| [k' v] e IH]; simpl; [reflexivity |].
  destruct (String.eqb_spec k' k) as [-> | Hk]; simpl.
  - destruct (String.eqb_spec k name); [congruence | exact IH].
  - destruct (String.eqb_spec k' name); [reflexivity | exact IH].
Qed.

Lemma get_key_delete_same (k : string) (e : Errors) :
  get_key k (delete_key k e) = None.
Proof.
  unfold delete_key.
  induction e as [| [k' v] e IH]; simpl; [reflexivity |].
  destruct (String.eqb_spec k' k) as [-> | Hk]; simpl; [exact IH |].
  destruct (String.eqb_spec k' k); [contradiction | exact IH].
Qed.

Lemma clear_error_spec (k : string) (e : Errors) :
  has_error k (clear_error k e) = false /\
  (forall name, name <> k ->
                get_key name (clear_error k e) = get_key name e).
Proof.
  unfold clear_error. destruct (has_error k e) eqn:Hk.
  - split.
    + unfold has_error. now rewrite get_key_delete_same.
    + intros name Hne. now apply get_key_delete_other.
  - split; [exact Hk | reflexivity].
Qed.

(** X22.  Typing in a text field, or changing one of the lists, sets that field
    and no other, removes the error shown for that field and leaves the
    errors of the other fields as they are. *)
Theorem editing_a_field_clears_its_error_only :
  (forall (t : TextField) (value : string) (form : Form),
      let form' := handleChange t value form in
      has_error (name_of t) (errors form') = false /\
      (forall name, name <> name_of t ->
                    get_key name (errors form') = get_key name (errors form)) /\
      (forall a, get_array a (formData form') = get_array a (formData form)) /\
      f_id (formData form') = f_id (formData form) /\
      f_authors (formData form') =
        match t with Authors => value | _ => f_authors (formData form) end /\
      f_title (formData form') =
        match t with Title => Some value | _ => f_title (formData form) end /\
      f_doi (formData form') =
        match t with Doi => Some value | _ => f_doi (formData form) end /\
      f_notes (formData form') =
        match t with Notes => Some value | _ => f_notes (formData form) end) /\
  (forall (a : ArrayField) (newValue : list string) (form : Form),
      let form' := handleArrayChange a newValue form in
      has_error (field_of a) (errors form') = false /\
      (forall name, name <> field_of a ->
                    get_key name (errors form') = get_key name (errors form)) /\
      get_array a (formData form') = newValue /\
      (forall a', a' <> a ->
                  get_array a' (formData form') = get_array a' (formData form)) /\
      f_id (formData form') = f_id (formData form) /\
      f_authors (formData form') = f_authors (formData form) /\
      f_title (formData form') = f_title (formData form) /\
      f_doi (formData form') = f_doi (formData form) /\
      f_notes (formData form') = f_notes (formData form)).
Proof.
  split.
  - intros t value form form'. unfold form', handleChange. cbn [errors formData].
    destruct (clear_error_spec (name_of t) (errors form)) as [H1 H2].
    split; [exact H1 | split; [exact H2 |]].
    split; [intros []; reflexivity |]. repeat split.
  - intros a newValue form form'. unfold form', handleArrayChange.
    cbn [errors formData].
    destruct (clear_error_spec (field_of a) (errors form)) as [H1 H2].
    split; [exact H1 | split; [exact H2 |]].
    split; [destruct a; reflexivity |].
    split; [intros a' Hne; destruct a, a'; try reflexivity; contradiction |].
    repeat split.
Qed.

(** ** The detail card *)

Lemma clicks_count (article : Article) (cs : list Click) :
  forall deleteConfirm : bool,
    (List.length (filter is_delete_call
                         (snd (clicks article deleteConfirm cs)))
     + (if fst (clicks article deleteConfirm cs) then 1 else 0)
     <= List.length (filter is_delete_icon cs)
        + (if deleteConfirm then 1 else 0))%nat /\
    Forall (fun c => is_delete_call c = true -> c = OnDelete article)
           (snd (clicks article deleteConfirm cs)).
Proof.
  induction cs as [| c cs IH]; intros deleteConfirm.
  - simpl. split; [lia | constructor].
  - simpl clicks.
    destruct (click article deleteConfirm c) as [deleteConfirm' called] eqn:Hc.
    specialize (IH deleteConfirm').
    destruct (clicks article deleteConfirm' cs) as [final called'].
    simpl fst in *. simpl snd in *. destruct IH as [IHn IHf].
    rewrite filter_app, length_app.
    destruct c, deleteConfirm; simpl in Hc; injection Hc as <- <-;
      simpl in *; (split; [lia |]);
      repeat constructor; auto; discriminate.
Qed.

(** X23.  No deletion without confirmation: in any sequence of clicks on the
    card of an article, starting as the card is first shown, the parent is
    asked to delete at most as many times as the delete icon was clicked,
    and only ever the article of the card. *)
Theorem delete_needs_the_delete_icon_first :
  forall (article : Article) (cs : list Click),
    (List.length (filter is_delete_call (snd (clicks article false cs)))
     <= List.length (filter is_delete_icon cs))%nat /\
    Forall (fun c => is_delete_call c = true -> c = OnDelete article)
           (snd (clicks article false cs)).
Proof.
  intros article cs.
  destruct (clicks_count article cs false) as [Hn Hf]. split; [| exact Hf].
  destruct (fst (clicks article false cs)); lia.
Qed.
